(** * deepl-keys-to-deeplx: the upstream pool, its refresh and the
      dispatch loop of [main.go], embedded in Rocq.

    Go strings are byte strings ([string] of [ascii]); slices are lists
    and a slice that can be [nil] where the code tests for it is an
    [option (list _)]; the [int] of a wire type and a [rune] are [Z],
    lengths and indices of slices are [nat].  The shared pool
    [saku] and the package variable [isChecking] are threaded explicitly
    as a state; the network, the file [apis.txt], [math/rand] and the
    completion order of goroutines are the environment, given to each
    function as data.  The embedding is sequential: one handler or one
    refresh at a time. *)

From Stdlib Require Import ZArith Ascii Lia.
From Stdlib Require String DecimalString PrimFloat.
From stdpp Require Import list strings.

(** ** Bytes and UTF-8 (package [unicode/utf8]) *)

Definition rune := Z.

Definition byteOf (c : ascii) : Z := Z.of_nat (nat_of_ascii c).

Definition bytes (s : string) : list Z := map byteOf (String.list_ascii_of_string s).

Definition RuneError : rune := 0xFFFD%Z.

(** The table [first] joined with [acceptRanges]: for a leading byte of a
    multi-byte sequence, its width and the range its second byte must lie
    in; [None] for a byte that starts no sequence. *)
Definition first (b : Z) : option (nat * Z * Z) :=
  if (b <? 0xC2)%Z then None
  else if (b <=? 0xDF)%Z then Some (2, 0x80%Z, 0xBF%Z)
  else if (b =? 0xE0)%Z then Some (3, 0xA0%Z, 0xBF%Z)
  else if (b <=? 0xEC)%Z then Some (3, 0x80%Z, 0xBF%Z)
  else if (b =? 0xED)%Z then Some (3, 0x80%Z, 0x9F%Z)
  else if (b <=? 0xEF)%Z then Some (3, 0x80%Z, 0xBF%Z)
  else if (b =? 0xF0)%Z then Some (4, 0x90%Z, 0xBF%Z)
  else if (b <=? 0xF3)%Z then Some (4, 0x80%Z, 0xBF%Z)
  else if (b =? 0xF4)%Z then Some (4, 0x80%Z, 0x8F%Z)
  else None.

Definition between (lo hi b : Z) : bool := ((lo <=? b) && (b <=? hi))%Z.

Definition cont (b : Z) : Z := Z.land b 0x3F.

(** [utf8.DecodeRune]: the first rune of [p] and its width in bytes;
    [(RuneError, 0)] on the empty input and [(RuneError, 1)] on a byte
    sequence that is not the encoding of a rune. *)
Definition DecodeRune (p : list Z) : rune * nat :=
  match p with
  | [] => (RuneError, 0)
  | s0 :: p1 =>
    if (s0 <? 0x80)%Z then (s0, 1)
    else
      match first s0 with
      | None => (RuneError, 1)
      | Some (sz, lo, hi) =>
        match p1 with
        | [] => (RuneError, 1)
        | s1 :: p2 =>
          if negb (between lo hi s1) then (RuneError, 1)
          else if sz <=? 2 then
            (Z.lor (Z.shiftl (Z.land s0 0x1F) 6) (cont s1), 2)
          else
            match p2 with
            | [] => (RuneError, 1)
            | s2 :: p3 =>
              if negb (between 0x80 0xBF s2) then (RuneError, 1)
              else if sz <=? 3 then
                (Z.lor (Z.shiftl (Z.land s0 0x0F) 12)
                   (Z.lor (Z.shiftl (cont s1) 6) (cont s2)), 3)
              else
                match p3 with
                | [] => (RuneError, 1)
                | s3 :: _ =>
                  if negb (between 0x80 0xBF s3) then (RuneError, 1)
                  else
                    (Z.lor (Z.shiftl (Z.land s0 0x07) 18)
                       (Z.lor (Z.shiftl (cont s1) 12)
                          (Z.lor (Z.shiftl (cont s2) 6) (cont s3))), 4)
                end
            end
        end
      end
  end.

Definition RuneStart (b : Z) : bool := negb (Z.land b 0xC0 =? 0x80)%Z.

(** The backward scan of [utf8.DecodeLastRune]: from [start], at most
    three bytes back and not below [lim], for a byte that starts a rune. *)
Fixpoint scanBack (n : nat) (p : list Z) (lim start : Z) : Z :=
  match n with
  | O => start
  | S n' =>
    if (start <? lim)%Z then start
    else if RuneStart (default 0%Z (p !! Z.to_nat start)) then start
    else scanBack n' p lim (start - 1)
  end.

(** [utf8.DecodeLastRune]: the last rune of [p] and its width. *)
Definition DecodeLastRune (p : list Z) : rune * nat :=
  match last p with
  | None => (RuneError, 0)
  | Some b =>
    if (b <? 0x80)%Z then (b, 1)
    else
      let end_ := Z.of_nat (length p) in
      let lim := Z.max 0 (end_ - 4) in
      let start := Z.max 0 (scanBack 3 p lim (end_ - 2)) in
      let '(r, size) := DecodeRune (drop (Z.to_nat start) p) in
      if (start + Z.of_nat size =? end_)%Z then (r, size) else (RuneError, 1)
  end.

(** The runes of a string as [for _, r := range s] and [regexp] see them:
    each ill-formed byte is one [RuneError]. *)
Fixpoint runesFrom (fuel : nat) (p : list Z) : list rune :=
  match fuel with
  | O => []
  | S f =>
    match p with
    | [] => []
    | _ :: _ => let '(r, w) := DecodeRune p in r :: runesFrom f (drop w p)
    end
  end.

Definition runes (s : string) : list rune :=
  let p := bytes s in runesFrom (length p) p.

(** ** Package [unicode] *)

Definition inRanges (tbl : list (Z * Z)) (r : rune) : bool :=
  existsb (fun '(lo, hi) => between lo hi r) tbl.

(** [unicode.IsSpace]: the property White_Space. *)
Definition White_Space : list (Z * Z) :=
  [ (0x0009, 0x000D); (0x0020, 0x0020); (0x0085, 0x0085); (0x00A0, 0x00A0);
    (0x1680, 0x1680); (0x2000, 0x200A); (0x2028, 0x2029); (0x202F, 0x202F);
    (0x205F, 0x205F); (0x3000, 0x3000) ]%Z.

Definition IsSpace (r : rune) : bool := inRanges White_Space r.

(** [unicode.Han], the script table behind the class [\p{Han}], as of
    Unicode 15.0.0; the range [0x3005 .. 0x3007] of the table has
    stride 2. *)
Definition Han_ranges : list (Z * Z) :=
  [ (0x2E80, 0x2E99); (0x2E9B, 0x2EF3); (0x2F00, 0x2FD5); (0x3005, 0x3005);
    (0x3007, 0x3007); (0x3021, 0x3029); (0x3038, 0x303B); (0x3400, 0x4DBF);
    (0x4E00, 0x9FFF); (0xF900, 0xFA6D); (0xFA70, 0xFAD9);
    (0x16FE2, 0x16FE3); (0x16FF0, 0x16FF1); (0x20000, 0x2A6DF);
    (0x2A700, 0x2B739); (0x2B740, 0x2B81D); (0x2B820, 0x2CEA1);
    (0x2CEB0, 0x2EBE0); (0x2F800, 0x2FA1D); (0x30000, 0x3134A);
    (0x31350, 0x323AF) ]%Z.

Definition isHan (r : rune) : bool := inRanges Han_ranges r.

(** ** Package [strings] *)

Definition HasPrefix (s pre : string) : bool := String.prefix pre s.

Definition HasSuffix (s suf : string) : bool :=
  let n := String.length s in
  let m := String.length suf in
  (m <=? n) && String.eqb (String.substring (n - m) m s) suf.

(** Number of leading bytes of [p] that encode white space. *)
Fixpoint leftSpaces (fuel : nat) (p : list Z) : nat :=
  match fuel with
  | O => 0
  | S f =>
    let '(r, w) := DecodeRune p in
    if (0 <? w) && IsSpace r then w + leftSpaces f (drop w p) else 0
  end.

(** Number of trailing bytes of [p] that encode white space. *)
Fixpoint rightSpaces (fuel : nat) (p : list Z) : nat :=
  match fuel with
  | O => 0
  | S f =>
    let '(r, w) := DecodeLastRune p in
    if (0 <? w) && IsSpace r
    then w + rightSpaces f (take (length p - w) p) else 0
  end.

(** [strings.TrimSpace]: [s] without its leading and trailing white
    space, as defined by Unicode. *)
Definition TrimSpace (s : string) : string :=
  let p := bytes s in
  let a := leftSpaces (length p) p in
  let q := drop a p in
  let b := rightSpaces (length q) q in
  String.substring a (length q - b) s.

(** ** Errors and results *)

(** The error values of the program.  The three sentinels are package
    variables made with [errors.New]; [errors.Is] against a sentinel is
    equality with it. *)
Inductive error : Type :=
| errDeepLTooManyRequests
| errIsChecking
| errGoogleTranslateFailed
| errApisTxtIsEmpty                (* [errors.New("apis.txt is empty")] *)
| errOther (msg : string).         (* an error of os, bufio, io, net/http, encoding/json *)

#[global] Instance error_eq_dec : EqDecision error.
Proof. solve_decision. Defined.

(** [err.Error()] *)
Definition Error (e : error) : string :=
  match e with
  | errDeepLTooManyRequests => "too many requests"
  | errIsChecking => "currently checking"
  | errGoogleTranslateFailed => "google translate failed"
  | errApisTxtIsEmpty => "apis.txt is empty"
  | errOther msg => msg
  end.

(** A Go function returning [(T, error)] that returns the zero [T] with
    every error. *)
Inductive result (A : Type) : Type :=
| Ok (a : A)
| Err (e : error).

Arguments Ok {A} a.
Arguments Err {A} e.

(** ** Wire types *)

Module deepLReq.
Record t := mk { Text : list string; TargetLang : string; TagHandling : string }.
End deepLReq.

Module translation.
Record t := mk { DetectedSourceLang : string; Text : string }.
End translation.

(** [Translations] is a slice tested against [nil]: [None] is [nil], as
    decoded from a body without the field or with [null]; [Some []] is
    the empty slice decoded from [{"translations":[]}]. *)
Module deepLResp.
Record t := mk { Translations : option (list translation.t); Message : string }.
End deepLResp.

Module deepLXReq.
Record t := mk { Text : string; SourceLang : string; TargetLang : string;
                 TagHandling : string }.
End deepLXReq.

Module deepLXResp.
Record t := mk { Code : Z; ID : Z; Data : string; Alternatives : list string }.
End deepLXResp.

Definition StatusOK : Z := 200.
Definition StatusBadRequest : Z := 400.
Definition StatusInternalServerError : Z := 500.

(** ** The fallback translation *)

(** A value as [json.Unmarshal] stores it in an [interface{}]. *)
#[warnings="-register-all"]
Inductive json : Type :=
| JNull
| JBool (b : bool)
| JNumber (f : PrimFloat.float)
| JString (s : string)
| JArray (l : list json)
| JObject (m : list (string * json)).

(** [strings.Contains] *)
Fixpoint Contains (s substr : string) : bool :=
  HasPrefix s substr
  || match s with
     | EmptyString => false
     | String _ rest => Contains rest substr
     end.

Definition upperhex (n : Z) : ascii :=
  default "0"%char (String.list_ascii_of_string "0123456789ABCDEF" !! Z.to_nat n).

(** [shouldEscape(c, encodeQueryComponent)] of [net/url]: all but the
    unreserved characters. *)
Definition shouldEscape (c : Z) : bool :=
  negb (between 0x61 0x7A c || between 0x41 0x5A c || between 0x30 0x39 c
        || (c =? 0x2D)%Z || (c =? 0x5F)%Z || (c =? 0x2E)%Z || (c =? 0x7E)%Z).

(** [url.QueryEscape] *)
Fixpoint QueryEscape (s : string) : string :=
  match s with
  | EmptyString => EmptyString
  | String c rest =>
    let b := byteOf c in
    if (b =? 0x20)%Z then String "+" (QueryEscape rest)
    else if shouldEscape b
    then String "%" (String (upperhex (Z.shiftr b 4))
                       (String (upperhex (Z.land b 15)) (QueryEscape rest)))
    else String c (QueryEscape rest)
  end.

(** The error [googleTranslate] returns: a sentinel, an error of the
    transport, or [errors.Join] of two. *)
Inductive joined : Type :=
| Single (e : error)
| Join (e1 e2 : error).

(** [errors.Is(err, target)] *)
Definition Is (err : joined) (target : error) : bool :=
  match err with
  | Single e => bool_decide (e = target)
  | Join e1 e2 => bool_decide (e1 = target) || bool_decide (e2 = target)
  end.

(** What [http.Get] and [io.ReadAll] give, with the body as
    [json.Unmarshal] decodes it into a [[]interface{}]: an error when it
    is not an array or [null], the empty list for [null]. *)
Inductive GetReply : Type :=
| GetFails (err : error)
| ReadAllFails (err : error)
| GotBody (body : string) (unmarshal : result (list json)).

(** How a call of [googleTranslate] ends; [Panics] is the run-time
    panic of a failed type assertion. *)
Inductive Translated : Type :=
| Returns (text : string)
| Fails (err : joined)
| Panics.

Module Google.
Section WithSprint.
(** [fmt.Sprintf("%v", v)] *)
Context (Sprint : json -> string).

(** The two loops over [inner]: the first element of every element,
    which has to be an array; [None] when one is not. *)
Fixpoint firstOfEach (inner : list json) : option (list string) :=
  match inner with
  | [] => Some []
  | JArray slice :: rest =>
    let text := match slice with
                | [] => []
                | translatedText :: _ => [Sprint translatedText]
                end in
    match firstOfEach rest with
    | Some texts => Some (text ++ texts)
    | None => None
    end
  | _ :: _ => None
  end.

Definition requestURL (sourceText sourceLang targetLang : string) : string :=
  "https://translate.googleapis.com/translate_a/single?client=gtx&sl=" +:+ sourceLang
  +:+ "&tl=" +:+ targetLang +:+ "&dt=t&q=" +:+ QueryEscape sourceText.

Definition googleTranslate (get : string -> GetReply)
    (sourceText sourceLang targetLang : string) : Translated :=
  match get (requestURL sourceText sourceLang targetLang) with
  | GetFails err => Fails (Single err)
  | ReadAllFails err => Fails (Single err)
  | GotBody body unmarshal =>
    if Contains body "<title>Error 400 (Bad Request)"
    then Fails (Join errGoogleTranslateFailed (errOther "HTTP 400 (Bad Request)"))
    else
      match unmarshal with
      | Err err => Fails (Join errGoogleTranslateFailed err)
      | Ok [] => Fails (Single errGoogleTranslateFailed)
      | Ok (JArray inner :: _) =>
        match firstOfEach inner with
        | Some text => Returns (String.concat "" text)
        | None => Panics
        end
      | Ok (_ :: _) => Panics
      end
  end.

End WithSprint.
End Google.

(** ** The network *)

(** The address [deepLReq.post] sends to. *)
Definition deepLEndpoint (key : string) : string :=
  if HasSuffix key ":fx"
  then "https://api-free.deepl.com/v2/translate"
  else "https://api.deepl.com/v2/translate".

(** What the outside gives, per call: the results of [deepLReq.post] and
    of [deepLXReq.post], the reply [googleTranslate] gets at a URL, and
    [fmt.Sprintf("%v", v)]. *)
Record Net := {
  postDeepL : string -> string -> deepLReq.t -> result deepLResp.t;
  postDeepLX : string -> deepLXReq.t -> result deepLXResp.t;
  httpGet : string -> GetReply;
  fmtSprint : json -> string }.

(** [googleTranslate], on a network. *)
Definition googleTranslate (net : Net) (sourceText sourceLang targetLang : string)
    : Translated :=
  Google.googleTranslate (fmtSprint net) (httpGet net) sourceText sourceLang targetLang.

(** A request that left the process. *)
Inductive NetCall : Type :=
| CallDeepL (endpoint key : string) (req : deepLReq.t)
| CallDeepLX (u : string) (req : deepLXReq.t)
| CallGoogle (sourceText sourceLang targetLang : string).

(** ** The pool *)

Record safeAliveKeysAndURLs := { keys : list string; urls : list string }.

(** The loop over the slice up to its [return true]: the first index
    holding [keyOrURL]. *)
Fixpoint indexOf (keyOrURL : string) (slice : list string) : option nat :=
  match slice with
  | [] => None
  | v :: rest =>
    if decide (v = keyOrURL) then Some 0 else S <$> indexOf keyOrURL rest
  end.

(** The removal at index [i]: the last element is copied over element
    [i] and the slice is cut by one. *)
Definition swapRemove (i : nat) (slice : list string) : list string :=
  let n := length slice in
  match slice !! (n - 1) with
  | Some lastv => take (n - 1) (<[i := lastv]> slice)
  | None => slice
  end.

Definition removeKeyOrURL (isKey : bool) (keyOrURL : string)
    (saku : safeAliveKeysAndURLs) : bool * safeAliveKeysAndURLs :=
  let slice := if isKey then keys saku else urls saku in
  match indexOf keyOrURL slice with
  | Some i =>
    let slice' := swapRemove i slice in
    (true, if isKey then {| keys := slice'; urls := urls saku |}
           else {| keys := keys saku; urls := slice' |})
  | None => (false, saku)
  end.

(** ** The configuration file *)

(** What opening and scanning [apis.txt] gives: [os.Open] fails, or the
    scanner delivers lines and then stops, at the end of the file or on
    an error of its own. *)
Inductive apisTxt : Type :=
| OpenFails (e : error)
| Scanned (lines : list string) (scanErr : option error).

(** One run of the loop [for scanner.Scan()] of [parseKeysAndURLs]. *)
Fixpoint scanLoop (lines : list string) (keys urls : list string) (isEmpty : bool)
    : list string * list string * bool :=
  match lines with
  | [] => (keys, urls, isEmpty)
  | line :: rest =>
    let text := TrimSpace line in
    if HasPrefix text "#" || HasPrefix text "//" then scanLoop rest keys urls isEmpty
    else if HasPrefix text "http" then scanLoop rest keys (urls ++ [text]) false
    else scanLoop rest (keys ++ [text]) urls false
  end.

Definition parseKeysAndURLs (file : apisTxt) : result (list string * list string) :=
  match file with
  | OpenFails err => Err err
  | Scanned lines scanErr =>
    let '(keys, urls, isEmpty) := scanLoop lines [] [] true in
    if isEmpty then Err errApisTxtIsEmpty
    else match scanErr with
         | Some err => Err err
         | None => Ok (keys, urls)
         end
  end.

(** ** Liveness probe *)

Definition checkAlive (net : Net) (isKey : bool) (keyOrURL : string)
    : bool * option error :=
  if isKey then
    let lReq := deepLReq.mk ["test"] "zh" "" in
    match postDeepL net (deepLEndpoint keyOrURL) keyOrURL lReq with
    | Err _ => (false, None)
    | Ok lResp =>
      match deepLResp.Translations lResp with
      | None => (false, None)
      | Some _ => (true, None)
      end
    end
  else
    let lxReq := deepLXReq.mk "test" "en" "zh" "" in
    match postDeepLX net keyOrURL lxReq with
    | Err _ => (false, None)
    | Ok lxResp =>
      if negb (deepLXResp.Code lxResp =? StatusOK)%Z then (false, None)
      else (true, None)
    end.

(** The request a probe sends. *)
Definition probeCall (isKey : bool) (keyOrURL : string) : NetCall :=
  if isKey then CallDeepL (deepLEndpoint keyOrURL) keyOrURL (deepLReq.mk ["test"] "zh" "")
  else CallDeepLX keyOrURL (deepLXReq.mk "test" "en" "zh" "").

(** ** Refresh *)

Record World := { saku : safeAliveKeysAndURLs; isChecking : bool }.

(** The goroutines of one fan-out append under the lock in the order in
    which they finish.  [arrange order l] is [l] in such an order:
    [order] gives, for each element, the place it takes among those
    launched after it. *)
Fixpoint insertAt (p : nat) (x : string) (l : list string) : list string :=
  match p, l with
  | S p', y :: l' => y :: insertAt p' x l'
  | _, _ => x :: l
  end.

Fixpoint arrange (order : list nat) (l : list string) : list string :=
  match l with
  | [] => []
  | x :: l' => insertAt (hd 0 order) x (arrange (tl order) l')
  end.

(** What a refresh meets: the file, the network as the [i]-th goroutine
    of a fan-out meets it, and the two completion orders. *)
Record CheckEnv := {
  apis_txt : apisTxt;
  probeNet : nat -> Net;
  keysOrder : list nat;
  urlsOrder : list nat }.

(** The entries of [l], launched as goroutines [i], [i+1], ..., whose
    probe reports alive. *)
Fixpoint probeFrom (net : nat -> Net) (isKey : bool) (i : nat) (l : list string)
    : list string :=
  match l with
  | [] => []
  | k :: rest =>
    let others := probeFrom net isKey (S i) rest in
    match checkAlive (net i) isKey k with
    | (_, Some _) => others
    | (true, None) => k :: others
    | (false, None) => others
    end
  end.

Definition lenZ {A} (l : list A) : Z := Z.of_nat (length l).

Definition runCheck (env : CheckEnv) (w : World)
    : (Z * Z * option error) * World * list NetCall :=
  if isChecking w then ((0%Z, 0%Z, Some errIsChecking), w, [])
  else
    let w1 := {| saku := saku w; isChecking := true |} in
    let '(r, w2, calls) :=
      match parseKeysAndURLs (apis_txt env) with
      | Err err => ((0%Z, 0%Z, Some err), w1, [])
      | Ok (keys, urls) =>
        let aliveKeys := arrange (keysOrder env) (probeFrom (probeNet env) true 0 keys) in
        let aliveURLs := arrange (urlsOrder env) (probeFrom (probeNet env) false 0 urls) in
        ((lenZ keys, lenZ urls, None),
         {| saku := {| keys := aliveKeys; urls := aliveURLs |};
            isChecking := isChecking w1 |},
         map (probeCall true) keys ++ map (probeCall false) urls)
      end in
    (* the deferred [isChecking = false] *)
    (r, {| saku := saku w2; isChecking := false |}, calls).

(** ** Completeness check *)

(** [regexp.MustCompile(`\p{Han}`).MatchString(text)] *)
Definition containsChinese (text : string) : bool := existsb isHan (runes text).

(** ** The forwarding handler *)

(** What the handler writes: [http.Error(w, msg, code)], or the JSON of
    a [deepLXResp] with status 200.  [json.Marshal] of a [deepLXResp]
    has no failing case. *)
Inductive Response : Type :=
| HttpError (msg : string) (code : Z)
| HttpOK (lxResp : deepLXResp.t).

(** The four [goto reTranslate] of the handler, in source order. *)
Inductive GotoSite : Type :=
| KeyPostFailed          (* [lReq.post(key)] returned an error *)
| NoTranslations         (* [len(lResp.Translations) == 0] *)
| URLFailed              (* [lxReq.post(u)] failed or [Code != 200] *)
| MissingTranslation.    (* no Han character, a key is alive, [use == 1] *)

(** How one pass from the label [reTranslate] ends.  [Panic] is a
    run-time panic: of [rand.IntN(0)], or of [googleTranslate]. *)
Inductive Outcome : Type :=
| Return (r : Response)
| GotoReTranslate (site : GotoSite)
| Panic.

(** The state at the end of one pass. *)
Record Attempt := {
  outcome : Outcome;
  forceUseDeepL : bool;
  world : World;
  calls : list NetCall }.

(** What one pass meets: the refresh it may trigger, the two draws of
    [math/rand] and the network. *)
Record Env := {
  check : CheckEnv;
  randFamily : nat;
  randIndex : nat;
  net : Net }.

(** [rand.IntN(n)]: panics when [n <= 0], else a number below [n]. *)
Definition IntN (draw n : nat) : option nat :=
  if n =? 0 then None else Some (draw mod n).

Definition bothEmpty (saku : safeAliveKeysAndURLs) : bool :=
  (length (keys saku) =? 0) && (length (urls saku) =? 0).

(** Lines 415-427: the value of [use], 0 for a key and 1 for a url. *)
Definition selectFamily (env : Env) (force : bool)
    (saku : safeAliveKeysAndURLs) : Z :=
  if negb force then
    if (0 <? length (keys saku)) && (0 <? length (urls saku))
    then Z.of_nat (randFamily env mod 2)
    else if length (keys saku) =? 0 then 1%Z
    else 0%Z
  else 0%Z.

(** Lines 493-528: the check of the translated text, and the answer. *)
Definition checkContainsChinese (env : Env) (enableCheckContainsChinese : bool)
    (lxReq : deepLXReq.t) (force : bool) (use : Z)
    (lxResp : deepLXResp.t) (w : World) (sent : list NetCall) : Attempt :=
  if enableCheckContainsChinese && negb (containsChinese (deepLXResp.Data lxResp)) then
    if (use =? 1)%Z && (0 <? length (keys (saku w))) then
      {| outcome := GotoReTranslate MissingTranslation; forceUseDeepL := true;
         world := w; calls := sent |}
    else
      let sent' := sent ++ [CallGoogle (deepLXReq.Text lxReq) (deepLXReq.SourceLang lxReq)
                                       (deepLXReq.TargetLang lxReq)] in
      match googleTranslate (net env) (deepLXReq.Text lxReq) (deepLXReq.SourceLang lxReq)
                            (deepLXReq.TargetLang lxReq) with
      | Fails _ =>
        {| outcome := Return (HttpOK lxResp); forceUseDeepL := force;
           world := w; calls := sent' |}
      | Returns googleTranslateText =>
        {| outcome := Return (HttpOK (deepLXResp.mk (deepLXResp.Code lxResp)
                                        (deepLXResp.ID lxResp) googleTranslateText
                                        (deepLXResp.Alternatives lxResp)));
           forceUseDeepL := force; world := w; calls := sent' |}
      | Panics =>
        {| outcome := Panic; forceUseDeepL := force; world := w; calls := sent' |}
      end
  else
    {| outcome := Return (HttpOK lxResp); forceUseDeepL := force;
       world := w; calls := sent |}.

Definition evict (isKey : bool) (keyOrURL : string) (w : World) : World :=
  {| saku := snd (removeKeyOrURL isKey keyOrURL (saku w)); isChecking := isChecking w |}.

(** Lines 442-473: the branch [use == 0]. *)
Definition translateWithKey (env : Env) (enableCheckContainsChinese : bool)
    (lxReq : deepLXReq.t) (force : bool) (use : Z)
    (w : World) (sent : list NetCall) : Attempt :=
  match IntN (randIndex env) (length (keys (saku w))) with
  | None => {| outcome := Panic; forceUseDeepL := force; world := w; calls := sent |}
  | Some keyIndex =>
    match keys (saku w) !! keyIndex with
    | None => {| outcome := Panic; forceUseDeepL := force; world := w; calls := sent |}
    | Some key =>
      let lReq := deepLReq.mk [deepLXReq.Text lxReq] (deepLXReq.TargetLang lxReq) "" in
      let sent' := sent ++ [CallDeepL (deepLEndpoint key) key lReq] in
      match postDeepL (net env) (deepLEndpoint key) key lReq with
      | Err _ =>
        {| outcome := GotoReTranslate KeyPostFailed; forceUseDeepL := force;
           world := evict true key w; calls := sent' |}
      | Ok lResp =>
        match default [] (deepLResp.Translations lResp) with
        | [] =>
          {| outcome := GotoReTranslate NoTranslations; forceUseDeepL := force;
             world := w; calls := sent' |}
        | tr :: _ =>
          let lxResp := deepLXResp.mk StatusOK 0 (translation.Text tr) [translation.Text tr] in
          checkContainsChinese env enableCheckContainsChinese lxReq force use
            lxResp w sent'
        end
      end
    end
  end.

(** Lines 474-491: the branch [use != 0]. *)
Definition translateWithURL (env : Env) (enableCheckContainsChinese : bool)
    (lxReq : deepLXReq.t) (force : bool) (use : Z)
    (w : World) (sent : list NetCall) : Attempt :=
  match IntN (randIndex env) (length (urls (saku w))) with
  | None => {| outcome := Panic; forceUseDeepL := force; world := w; calls := sent |}
  | Some urlIndex =>
    match urls (saku w) !! urlIndex with
    | None => {| outcome := Panic; forceUseDeepL := force; world := w; calls := sent |}
    | Some u =>
      let sent' := sent ++ [CallDeepLX u lxReq] in
      let failed :=
        {| outcome := GotoReTranslate URLFailed; forceUseDeepL := force;
           world := evict false u w; calls := sent' |} in
      match postDeepLX (net env) u lxReq with
      | Err _ => failed
      | Ok lxResp =>
        if negb (deepLXResp.Code lxResp =? StatusOK)%Z then failed
        else checkContainsChinese env enableCheckContainsChinese lxReq force use
               lxResp w sent'
      end
    end
  end.

(** Lines 415-528: one pass once the pool is known not to be empty. *)
Definition dispatch (env : Env) (enableCheckContainsChinese : bool)
    (reqBody : option deepLXReq.t) (force : bool)
    (w : World) (sent : list NetCall) : Attempt :=
  let use := selectFamily env force (saku w) in
  match reqBody with
  | None =>
    {| outcome := Return (HttpError "invalid request body" StatusBadRequest);
       forceUseDeepL := force; world := w; calls := sent |}
  | Some lxReq =>
    if (use =? 0)%Z
    then translateWithKey env enableCheckContainsChinese lxReq force use w sent
    else translateWithURL env enableCheckContainsChinese lxReq force use w sent
  end.

(** One pass from the label [reTranslate] (lines 381-528).  [reqBody] is
    the body as [json.Decoder] decodes it into a [deepLXReq], [None]
    when it does not decode. *)
Definition attempt (env : Env) (enableCheckContainsChinese : bool)
    (reqBody : option deepLXReq.t) (force : bool) (w : World) : Attempt :=
  if bothEmpty (saku w) then
    let '(r, w', probes) := runCheck (check env) w in
    match snd r with
    | Some err =>
      if decide (err = errIsChecking) then
        {| outcome := Return (HttpError "no available keys or urls, currently rechecking"
                                StatusInternalServerError);
           forceUseDeepL := force; world := w'; calls := probes |}
      else
        {| outcome := Return (HttpError (Error err) StatusInternalServerError);
           forceUseDeepL := force; world := w'; calls := probes |}
    | None =>
      if bothEmpty (saku w') then
        {| outcome := Return (HttpError "no available keys and urls"
                                StatusInternalServerError);
           forceUseDeepL := force; world := w'; calls := probes |}
      else dispatch env enableCheckContainsChinese reqBody force w' probes
    end
  else dispatch env enableCheckContainsChinese reqBody force w [].

(** The passes of one request, one environment each: every
    [goto reTranslate] starts the next pass with the pool and the flag as
    the last one left them. *)
Fixpoint reTranslate (envs : list Env) (enableCheckContainsChinese : bool)
    (reqBody : option deepLXReq.t) (force : bool) (w : World)
    : list Attempt :=
  match envs with
  | [] => []
  | env :: rest =>
    let a := attempt env enableCheckContainsChinese reqBody force w in
    a :: match outcome a with
         | GotoReTranslate _ =>
           reTranslate rest enableCheckContainsChinese reqBody (forceUseDeepL a) (world a)
         | _ => []
         end
  end.

(** The body of an inbound request: [io.ReadAll] fails, or the bytes
    decode or not. *)
Inductive Body : Type :=
| ReadFails (err : error)
| Read (reqBody : option deepLXReq.t).

(** How the handler ends, if it does within the passes given. *)
Inductive Ending : Type :=
| Responded (r : Response)
| Panicked
| StillRetrying.

Definition ending (passes : list Attempt) : Ending :=
  match last passes with
  | None => StillRetrying
  | Some a =>
    match outcome a with
    | Return r => Responded r
    | Panic => Panicked
    | GotoReTranslate _ => StillRetrying
    end
  end.

Definition handleForward (envs : list Env) (enableCheckContainsChinese : bool)
    (body : Body) (w : World) : Ending * World * list NetCall :=
  match body with
  | ReadFails err => (Responded (HttpError (Error err) StatusInternalServerError), w, [])
  | Read reqBody =>
    let passes := reTranslate envs enableCheckContainsChinese reqBody false w in
    (ending passes, default w (world <$> last passes), concat (map calls passes))
  end.

(** ** The refresh endpoint *)

Definition StatusServiceUnavailable : Z := 503.

(** The verb [%d] of [fmt.Sprintf]. *)
Definition itoa (n : Z) : string := DecimalString.NilZero.string_of_int (Z.to_int n).

Definition newline : string := String "010" "".

(** The text [handleCheckAlive] writes after a refresh. *)
Definition summary (totalKeys aliveKeys totalURLs aliveURLs : Z) : string :=
  "all keys count:" +:+ itoa totalKeys +:+ ", available keys count:" +:+ itoa aliveKeys
  +:+ ", all urls count:" +:+ itoa totalURLs +:+ ", available urls count:" +:+ itoa aliveURLs
  +:+ newline.

(** What [handleCheckAlive] writes: [http.Error(w, msg, code)], or the
    summary with status 200. *)
Inductive CheckAliveResponse : Type :=
| CheckAliveError (msg : string) (code : Z)
| CheckAliveSummary (text : string).

Definition handleCheckAlive (env : CheckEnv) (w : World)
    : CheckAliveResponse * World * list NetCall :=
  let '(r, w', probes) := runCheck env w in
  let '(totalKeys, totalURLs, err) := r in
  match err with
  | Some err =>
    if decide (err = errIsChecking)
    then (CheckAliveError "currently rechecking, try again later" StatusServiceUnavailable,
          w', probes)
    else (CheckAliveError (Error err) StatusInternalServerError, w', probes)
  | None =>
    (CheckAliveSummary (summary totalKeys (lenZ (keys (saku w'))) totalURLs
                          (lenZ (urls (saku w')))),
     w', probes)
  end.

(** ** The process *)

(** What happens to a running server, one event at a time: the hourly
    ticker fires, or a request arrives for one of the two handlers. *)
Inductive Event : Type :=
| Tick (env : CheckEnv)
| GetCheckAlive (env : CheckEnv)
| PostForward (envs : list Env) (body : Body).

(** The state after one event.  An error of the ticker's refresh is
    logged and the loop goes on; a request leaves the pool as its last
    pass left it, however that pass ended. *)
Definition serve (enableCheckContainsChinese : bool) (w : World) (ev : Event) : World :=
  match ev with
  | Tick env => (runCheck env w).1.2
  | GetCheckAlive env => (handleCheckAlive env w).1.2
  | PostForward envs body => (handleForward envs enableCheckContainsChinese body w).1.2
  end.

(** [main]: the first refresh, on the empty pool; [None] when it fails
    and the process ends before serving, else the state after the
    events. *)
Definition main (enableCheckContainsChinese : bool) (startup : CheckEnv)
    (events : list Event) : option World :=
  let '(r, w, _) := runCheck startup {| saku := {| keys := []; urls := [] |}; isChecking := false |} in
  match r.2 with
  | Some _ => None
  | None => Some (fold_left (serve enableCheckContainsChinese) events w)
  end.

(** * Vocabulary of the properties *)

Definition family (isKey : bool) (saku : safeAliveKeysAndURLs) : list string :=
  if isKey then keys saku else urls saku.

(** How many times [x] stands in a slice. *)
Definition occurrences (x : string) (slice : list string) : nat :=
  length (filter (λ v, v = x) slice).

Definition isComment (text : string) : bool :=
  HasPrefix text "#" || HasPrefix text "//".

(** The configured list: the trimmed lines that are not comments, in the
    order of the file. *)
Definition configured (lines : list string) : list string :=
  filter (λ text, isComment text = false) (TrimSpace <$> lines).

Definition credentialsOf (l : list string) : list string :=
  filter (λ text, HasPrefix text "http" = false) l.

Definition endpointsOf (l : list string) : list string :=
  filter (λ text, HasPrefix text "http" = true) l.

Definition startWorld : World :=
  {| saku := {| keys := []; urls := [] |}; isChecking := false |}.

(** The pool states a process reaches, one operation at a time, when
    every refresh reads a file that satisfies [P]. *)
Inductive reachable (P : apisTxt → Prop) : World → Prop :=
| reach_start : reachable P startWorld
| reach_refresh env w :
    reachable P w → P (apis_txt env) → reachable P (runCheck env w).1.2
| reach_evict isKey keyOrURL w :
    reachable P w → reachable P (evict isKey keyOrURL w).

(** The configured list names no upstream twice. *)
Definition noDuplicateLines (file : apisTxt) : Prop :=
  ∀ ks us, parseKeysAndURLs file = Ok (ks, us) → NoDup (ks ++ us).

(** Credentials do not begin with [http], endpoints do. *)
Definition classified (saku : safeAliveKeysAndURLs) : Prop :=
  Forall (λ k, HasPrefix k "http" = false) (keys saku)
  ∧ Forall (λ u, HasPrefix u "http" = true) (urls saku).

(** A request to an upstream goes to a member of the pool [saku]. *)
Definition toPool (saku : safeAliveKeysAndURLs) (c : NetCall) : Prop :=
  match c with
  | CallDeepL _ key _ => key ∈ keys saku
  | CallDeepLX u _ => u ∈ urls saku
  | CallGoogle _ _ _ => True
  end.


(** Every call to an upstream fails: a key with an error, an endpoint
    with an error or an embedded code other than 200. *)
Definition allFail (env : Env) : Prop :=
  (∀ endpoint key req, ∃ err, postDeepL (net env) endpoint key req = Err err)
  ∧ (∀ u req, match postDeepLX (net env) u req with
              | Err _ => True
              | Ok lxResp => deepLXResp.Code lxResp ≠ StatusOK
              end).

(** Every key answers without error and without a translation. *)
Definition answersNoEntries (env : Env) : Prop :=
  ∀ endpoint key req, ∃ lResp,
    postDeepL (net env) endpoint key req = Ok lResp
    ∧ default [] (deepLResp.Translations lResp) = [].

(** The number of upstreams alive. *)
Definition alive (w : World) : nat :=
  length (keys (saku w)) + length (urls (saku w)).

Definition isArray (v : json) : bool :=
  match v with
  | JArray _ => true
  | _ => false
  end.

(** An array whose elements are arrays: the shape the two loops of
    [googleTranslate] assert. *)
Definition arrayOfArrays (v : json) : bool :=
  match v with
  | JArray inner => forallb isArray inner
  | _ => false
  end.

(** One segment of a reply of the fallback: the translated text first. *)
Definition segment (s : string * list json) : json := JArray (JString s.1 :: s.2).

(** Every file an event reads satisfies [P]. *)
Definition eventReads (P : apisTxt → Prop) (ev : Event) : Prop :=
  match ev with
  | Tick env => P (apis_txt env)
  | GetCheckAlive env => P (apis_txt env)
  | PostForward envs _ => Forall (λ env, P (apis_txt (check env))) envs
  end.

(** * Environments used in the examples *)

(** [fmt.Sprintf("%v", v)] on the values the examples print: strings,
    [nil] and booleans. *)
Definition sprintText (v : json) : string :=
  match v with
  | JString s => s
  | JNull => "<nil>"
  | JBool true => "true"
  | JBool false => "false"
  | _ => ""
  end.

(** The fallback out of reach, and answering [null] for every text. *)
Definition getUnreachable (u : string) : GetReply :=
  GetFails (errOther "dial tcp: i/o timeout").

Definition getNull (u : string) : GetReply :=
  GotBody "[null,null]" (Ok [JNull; JNull]).

(** Upstreams that give the same answer to every call; the fallback is
    out of reach. *)
Definition upstreams (l : result deepLResp.t) (lx : result deepLXResp.t) : Net :=
  {| postDeepL := λ _ _ _, l; postDeepLX := λ _ _, lx;
     httpGet := getUnreachable; fmtSprint := sprintText |}.

(** The same network, with the fallback answering [null]. *)
Definition nullFallback (n : Net) : Net :=
  {| postDeepL := postDeepL n; postDeepLX := postDeepLX n;
     httpGet := getNull; fmtSprint := fmtSprint n |}.

Definition timeout {A} : result A := Err (errOther "context deadline exceeded").

Definition translated (text : string) : result deepLResp.t :=
  Ok (deepLResp.mk (Some [translation.mk "EN" text]) "").

Definition relayed (text : string) : result deepLXResp.t :=
  Ok (deepLXResp.mk StatusOK 0 text [text]).

(** A network on which every upstream answers with a translation. *)
Definition netAlive : Net :=
  {| postDeepL := λ _ _ _, Ok (deepLResp.mk (Some [translation.mk "EN" "测试"]) "");
     postDeepLX := λ _ _, Ok (deepLXResp.mk StatusOK 0 "测试" []);
     httpGet := λ _, GotBody "[[[...]],null,en]"
                       (Ok [JArray [JArray [JString "测试"; JString "test"]];
                            JNull; JString "en"]);
     fmtSprint := sprintText |}.

(** An account whose answer decodes from [{"translations":[]}]. *)
Definition netNoEntries : Net :=
  {| postDeepL := λ _ _ _, Ok (deepLResp.mk (Some []) "");
     postDeepLX := λ _ _, Err (errOther "connection refused");
     httpGet := getUnreachable; fmtSprint := sprintText |}.

Definition noRefresh : CheckEnv :=
  {| apis_txt := OpenFails (errOther "open apis.txt: no such file or directory");
     probeNet := λ _, netNoEntries; keysOrder := []; urlsOrder := [] |}.

(** A refresh that reads [lines] and finds every entry alive, the
    goroutines finishing in the order of their launch. *)
Definition refreshAlive (lines : list string) : CheckEnv :=
  {| apis_txt := Scanned lines None; probeNet := λ _, netAlive;
     keysOrder := []; urlsOrder := [] |}.

Definition pass (family index : nat) (n : Net) : Env :=
  {| check := noRefresh; randFamily := family; randIndex := index; net := n |}.

Definition passAlive (lines : list string) : Env :=
  {| check := refreshAlive lines; randFamily := 0; randIndex := 0; net := netAlive |}.

Definition pool (ks us : list string) : World :=
  {| saku := {| keys := ks; urls := us |}; isChecking := false |}.

(** A refresh that is already running. *)
Definition busyWorld : World :=
  {| saku := {| keys := []; urls := [] |}; isChecking := true |}.

Definition hello : deepLXReq.t := deepLXReq.mk "hello" "en" "zh" "".


(** The endpoint passes the text through, the first key fails, the
    second translates. *)
Definition threePasses : list Env :=
  [ pass 1 0 (upstreams timeout (relayed "hello"));
    pass 1 0 (upstreams timeout (relayed "hello"));
    pass 1 0 (upstreams (translated "你好") (relayed "hello")) ].

(** A reply of the fallback in two segments. *)
Definition twoSegments : list (string * list json) :=
  [ ("你好世界。", [JString "hello world."; JNull; JNull]);
    ("再见", [JString "bye"; JNull; JNull]) ].

Definition getTwoSegments (u : string) : GetReply :=
  GotBody "[[[...],[...]],null,en]" (Ok [JArray (segment <$> twoSegments); JNull; JString "en"]).

(** A server whose file names two keys and one endpoint: the ticker
    fires, then a request draws the endpoint, which is down, and is
    answered by the first key. *)
Definition threeLines : list string := ["k1"; "# spare"; "k2"; "http://u1"].

Definition passOn (lines : list string) (family index : nat) (n : Net) : Env :=
  {| check := refreshAlive lines; randFamily := family; randIndex := index; net := n |}.

Definition oneRequest : list Event :=
  [ Tick (refreshAlive threeLines);
    PostForward [ passOn threeLines 1 0 (upstreams (translated "你好") timeout);
                  passOn threeLines 0 0 (upstreams (translated "你好") timeout) ]
      (Read (Some hello)) ].

(** A refresh in which the probe of the second key times out. *)
Definition refreshSecondDown (lines : list string) : CheckEnv :=
  {| apis_txt := Scanned lines None;
     probeNet := λ i, if i =? 1 then upstreams timeout timeout else netAlive;
     keysOrder := []; urlsOrder := [] |}.

(** * Properties *)

(** ** The string functions on examples *)

Example TrimSpace_ascii : TrimSpace "   // spare key  " = "// spare key".
Proof. reflexivity. Qed.

(** A no-break space (C2 A0) before and an ideographic space
    (E3 80 80) after. *)
Example TrimSpace_unicode :
  TrimSpace (String "194" (String "160" ("k1:fx" +:+ String "227" (String "128" (String "128" "")))))
  = "k1:fx".
Proof. reflexivity. Qed.

Example TrimSpace_blank : TrimSpace "    " = "".
Proof. reflexivity. Qed.

Example runes_nihao : runes "你好" = [0x4F60; 0x597D]%Z.
Proof. reflexivity. Qed.

Example containsChinese_examples :
  containsChinese "你好" = true ∧ containsChinese "hello" = false
  ∧ containsChinese "こんにちは" = false ∧ containsChinese "日本語" = true.
Proof. repeat split; reflexivity. Qed.

Example deepLEndpoint_free : deepLEndpoint "0a1b2c:fx" = "https://api-free.deepl.com/v2/translate".
Proof. reflexivity. Qed.

Ltac pass_cases :=
  unfold attempt, dispatch, translateWithKey, translateWithURL,
    checkContainsChinese, selectFamily;
  repeat case_match; simpl in *; simplify_eq.

(** ** Eviction *)

Lemma occurrences_cons x v slice :
  occurrences x (v :: slice) =
  (if decide (v = x) then 1 else 0) + occurrences x slice.
Proof.
  unfold occurrences. rewrite filter_cons. destruct (decide (v = x)); reflexivity.
Qed.

Lemma occurrences_0 x slice : occurrences x slice = 0 ↔ x ∉ slice.
Proof.
  induction slice as [|v slice IH].
  - split; [intros _; apply not_elem_of_nil | reflexivity].
  - rewrite occurrences_cons, not_elem_of_cons.
    destruct (decide (v = x)) as [->|Hne]; simpl.
    + split; [discriminate | intros [Hx _]; congruence].
    + rewrite IH. split; [intros H; split; [congruence | exact H] | tauto].
Qed.

Lemma occurrences_perm x l1 l2 : l1 ≡ₚ l2 → occurrences x l1 = occurrences x l2.
Proof. intros Hp. unfold occurrences. now rewrite Hp. Qed.

Lemma indexOf_None x slice : indexOf x slice = None ↔ x ∉ slice.
Proof.
  induction slice as [|v slice IH]; simpl.
  - split; [intros _; apply not_elem_of_nil | reflexivity].
  - rewrite not_elem_of_cons. destruct (decide (v = x)) as [->|Hne].
    + split; [discriminate | intros [Hx _]; congruence].
    + destruct (indexOf x slice) as [i|] eqn:Hi; simpl.
      * split; [discriminate|]. intros [_ Hx]. apply IH in Hx. discriminate.
      * split; [|reflexivity]. intros _. split; [congruence | now apply IH].
Qed.

Lemma indexOf_Some x slice i : indexOf x slice = Some i → slice !! i = Some x.
Proof.
  revert i. induction slice as [|v slice IH]; simpl; intros i; [discriminate|].
  destruct (decide (v = x)) as [->|Hne].
  - intros [= <-]. reflexivity.
  - destruct (indexOf x slice) as [j|]; simpl; [|discriminate].
    intros [= <-]. simpl. now apply IH.
Qed.

Lemma swapRemove_last l1 x : swapRemove (length l1) (l1 ++ [x]) = l1.
Proof.
  unfold swapRemove. rewrite length_app. simpl.
  replace (length l1 + 1 - 1) with (length l1) by lia.
  rewrite lookup_app_r, Nat.sub_diag by lia. simpl.
  rewrite take_insert_ge by lia. now rewrite take_app_length.
Qed.

Lemma swapRemove_middle l1 x l2 y :
  swapRemove (length l1) (l1 ++ x :: l2 ++ [y]) = l1 ++ y :: l2.
Proof.
  unfold swapRemove.
  assert (Hn : length (l1 ++ x :: l2 ++ [y]) - 1 = length (l1 ++ x :: l2)).
  { rewrite !length_app. simpl. rewrite length_app. simpl. lia. }
  rewrite Hn.
  replace (l1 ++ x :: l2 ++ [y]) with ((l1 ++ x :: l2) ++ [y])
    by now rewrite <- app_assoc.
  rewrite lookup_app_r, Nat.sub_diag by lia. simpl.
  rewrite insert_app_l by (rewrite length_app; simpl; lia).
  rewrite take_app_length'
    by (rewrite length_insert; reflexivity).
  replace (length l1) with (length l1 + 0) by lia.
  now rewrite insert_app_r.
Qed.

(** Removal at an index that holds [x] takes away one [x] and nothing
    else, up to the order. *)
Lemma swapRemove_perm i slice x :
  slice !! i = Some x → x :: swapRemove i slice ≡ₚ slice.
Proof.
  intros Hi. pose proof (lookup_lt_Some _ _ _ Hi) as Hlt.
  rewrite <- (take_drop_middle slice i x Hi) at 2.
  assert (Hlen : length (take i slice) = i) by (rewrite length_take; lia).
  rewrite <- (take_drop_middle slice i x Hi), <- Hlen at 1. clear Hlen.
  generalize (take i slice) as l1, (drop (S i) slice) as l2. intros l1 l2.
  destruct l2 as [|z l2 _] using rev_ind.
  - rewrite swapRemove_last. apply Permutation_cons_append.
  - rewrite swapRemove_middle.
    etransitivity; [|apply Permutation_middle].
    apply perm_skip, Permutation_app_head, Permutation_cons_append.
Qed.

Lemma removeKeyOrURL_absent isKey x saku :
  x ∉ family isKey saku → removeKeyOrURL isKey x saku = (false, saku).
Proof.
  intros Hx. apply indexOf_None in Hx. unfold removeKeyOrURL.
  destruct isKey; simpl in Hx; now rewrite Hx.
Qed.

Lemma removeKeyOrURL_present isKey x saku :
  x ∈ family isKey saku →
  ∃ saku', removeKeyOrURL isKey x saku = (true, saku')
           ∧ x :: family isKey saku' ≡ₚ family isKey saku
           ∧ family (negb isKey) saku' = family (negb isKey) saku.
Proof.
  intros Hx. unfold removeKeyOrURL.
  destruct (indexOf x (if isKey then keys saku else urls saku)) as [i|] eqn:Hi.
  - apply indexOf_Some, swapRemove_perm in Hi.
    eexists. split; [reflexivity|]. destruct isKey; simpl; auto.
  - apply indexOf_None in Hi. destruct isKey; contradiction.
Qed.

(** The pool after an eviction holds what it held before, one
    occurrence of the evicted upstream apart. *)
Lemma removeKeyOrURL_subseteq isKey isKey' x saku :
  family isKey' (snd (removeKeyOrURL isKey x saku)) ⊆ family isKey' saku.
Proof.
  destruct (decide (x ∈ family isKey saku)) as [Hin|Hout].
  - destruct (removeKeyOrURL_present _ _ _ Hin) as (saku' & -> & Hp & Hother).
    simpl. destruct isKey, isKey'; simpl in *;
      try (rewrite Hother; reflexivity);
      rewrite <- Hp; apply list_subseteq_cons; reflexivity.
  - now rewrite removeKeyOrURL_absent.
Qed.

Lemma removeKeyOrURL_NoDup isKey isKey' x saku :
  NoDup (family isKey' saku) →
  NoDup (family isKey' (snd (removeKeyOrURL isKey x saku))).
Proof.
  intros Hnd. destruct (decide (x ∈ family isKey saku)) as [Hin|Hout].
  - destruct (removeKeyOrURL_present _ _ _ Hin) as (saku' & -> & Hp & Hother).
    simpl. destruct isKey, isKey'; simpl in *;
      try (rewrite Hother; assumption);
      rewrite <- Hp in Hnd; now apply NoDup_cons in Hnd.
  - now rewrite removeKeyOrURL_absent.
Qed.

(** C5 (as the code has it): when an upstream stands exactly once in the
    slice of its family, evicting it twice in a row returns [true] and
    then [false]; after the first call it is absent, and the second call
    leaves the pool as the first one left it. *)
Theorem evict_twice_true_then_false isKey keyOrURL saku :
  occurrences keyOrURL (family isKey saku) = 1 →
  let '(evicted1, saku1) := removeKeyOrURL isKey keyOrURL saku in
  let '(evicted2, saku2) := removeKeyOrURL isKey keyOrURL saku1 in
  evicted1 = true ∧ evicted2 = false
  ∧ (keyOrURL ∉ family isKey saku1) ∧ saku2 = saku1.
Proof.
  intros Hocc.
  assert (Hin : keyOrURL ∈ family isKey saku).
  { destruct (decide (keyOrURL ∈ family isKey saku)) as [|Hout]; [assumption|].
    apply occurrences_0 in Hout. lia. }
  destruct (removeKeyOrURL_present _ _ _ Hin) as (saku1 & -> & Hp & _).
  assert (Hout : keyOrURL ∉ family isKey saku1).
  { apply occurrences_0. apply (occurrences_perm keyOrURL) in Hp.
    rewrite occurrences_cons, Hocc in Hp.
    destruct (decide (keyOrURL = keyOrURL)); [lia | congruence]. }
  rewrite (removeKeyOrURL_absent _ _ _ Hout). auto.
Qed.

Lemma evict_twice_true_then_false_witness :
  let saku := {| keys := ["k1"; "k2:fx"; "k3"]; urls := ["http://u1"] |} in
  occurrences "k1" (family true saku) = 1
  ∧ let '(evicted1, saku1) := removeKeyOrURL true "k1" saku in
    let '(evicted2, saku2) := removeKeyOrURL true "k1" saku1 in
    evicted1 = true ∧ evicted2 = false
    ∧ ("k1" ∉ family true saku1) ∧ saku2 = saku1.
Proof.
  split; [reflexivity|].
  apply (evict_twice_true_then_false true "k1"
           {| keys := ["k1"; "k2:fx"; "k3"]; urls := ["http://u1"] |}).
  reflexivity.
Defined.

(** C5 fails as stated on a slice that holds the upstream twice: both
    calls return [true]. *)
Lemma evict_twice_duplicate_true_true :
  let saku := {| keys := ["k"; "k"]; urls := [] |} in
  removeKeyOrURL true "k" saku = (true, {| keys := ["k"]; urls := [] |})
  ∧ removeKeyOrURL true "k" {| keys := ["k"]; urls := [] |}
    = (true, {| keys := []; urls := [] |}).
Proof. split; reflexivity. Qed.

(** ** Parsing the configuration *)

Lemma scanLoop_spec lines ks us isEmpty :
  scanLoop lines ks us isEmpty =
  (ks ++ credentialsOf (configured lines),
   us ++ endpointsOf (configured lines),
   isEmpty && bool_decide (configured lines = [])).
Proof.
  revert ks us isEmpty.
  induction lines as [|line rest IH]; intros ks us isEmpty; simpl.
  - unfold configured, credentialsOf, endpointsOf. simpl.
    rewrite !app_nil_r. now destruct isEmpty.
  - unfold configured in *. rewrite fmap_cons, filter_cons. fold (isComment (TrimSpace line)).
    destruct (isComment (TrimSpace line)) eqn:Hc.
    + rewrite decide_False by discriminate. apply IH.
    + rewrite decide_True by reflexivity.
      unfold credentialsOf, endpointsOf in *. rewrite !filter_cons.
      destruct (HasPrefix (TrimSpace line) "http") eqn:Hh; rewrite IH.
      * rewrite decide_False, decide_True by congruence.
        rewrite <- app_assoc. simpl. now rewrite andb_false_r.
      * rewrite decide_True, decide_False by congruence.
        rewrite <- app_assoc. simpl. now rewrite andb_false_r.
Qed.

Lemma credentials_endpoints_perm l : credentialsOf l ++ endpointsOf l ≡ₚ l.
Proof.
  induction l as [|x l IH]; [reflexivity|].
  unfold credentialsOf, endpointsOf in *. rewrite !filter_cons.
  destruct (HasPrefix x "http").
  - rewrite decide_False, decide_True by congruence.
    rewrite <- Permutation_middle. now apply perm_skip.
  - rewrite decide_True, decide_False by congruence.
    simpl. now apply perm_skip.
Qed.

Lemma credentials_endpoints_disjoint l x :
  x ∈ credentialsOf l → x ∈ endpointsOf l → False.
Proof.
  unfold credentialsOf, endpointsOf. rewrite !list_elem_of_filter.
  intros [H1 _] [H2 _]. congruence.
Qed.

Lemma parseKeysAndURLs_Scanned lines scanErr :
  parseKeysAndURLs (Scanned lines scanErr) =
  if decide (configured lines = []) then Err errApisTxtIsEmpty
  else match scanErr with
       | Some err => Err err
       | None => Ok (credentialsOf (configured lines), endpointsOf (configured lines))
       end.
Proof.
  unfold parseKeysAndURLs. rewrite scanLoop_spec. simpl.
  destruct (decide (configured lines = [])) as [He|Hne].
  - now rewrite bool_decide_eq_true_2.
  - now rewrite bool_decide_eq_false_2.
Qed.

(** C6 (as the code has it): the lines that begin, once trimmed, with
    [#] or [//] are ignored; every other trimmed line, the empty one of a
    blank line included, is configured: an endpoint if it begins with
    [http], a credential otherwise.  Parsing a file that was read to its
    end fails, with the error of the empty file, exactly when nothing is
    configured; when it succeeds the two lists hold the configured lines,
    each in the order of the file, and a blank line is the credential
    [""]. *)
Theorem parseKeysAndURLs_configured lines :
  let cfg := configured lines in
  parseKeysAndURLs (Scanned lines None) =
    (if decide (cfg = []) then Err errApisTxtIsEmpty
     else Ok (credentialsOf cfg, endpointsOf cfg))
  ∧ credentialsOf cfg ++ endpointsOf cfg ≡ₚ cfg
  ∧ (∀ text, text ∈ cfg ↔ isComment text = false ∧ ∃ line, line ∈ lines ∧ text = TrimSpace line)
  ∧ (∀ line, line ∈ lines → TrimSpace line = "" →
       cfg ≠ [] ∧ "" ∈ credentialsOf cfg).
Proof.
  cbv zeta. split; [apply parseKeysAndURLs_Scanned|].
  split; [apply credentials_endpoints_perm|].
  assert (Hcfg : ∀ text, text ∈ configured lines ↔
            isComment text = false ∧ ∃ line, line ∈ lines ∧ text = TrimSpace line).
  { intros text. unfold configured. rewrite list_elem_of_filter, list_elem_of_fmap.
    split.
    - intros [Hc (line & -> & Hin)]. eauto.
    - intros [Hc (line & Hin & ->)]. eauto. }
  split; [exact Hcfg|].
  intros line Hin Hblank.
  assert (Hmem : "" ∈ configured lines).
  { apply Hcfg. split; [reflexivity|]. exists line. now rewrite Hblank. }
  split.
  - intros He. rewrite He in Hmem. now apply not_elem_of_nil in Hmem.
  - unfold credentialsOf. apply list_elem_of_filter. split; [reflexivity | exact Hmem].
Qed.

(** C6 fails as stated on a file of blank lines: nothing is left once
    comments and blank lines are taken out, yet parsing succeeds, with
    one empty credential per line. *)
Lemma parseKeysAndURLs_blank_lines :
  parseKeysAndURLs (Scanned [""; "   "; "# keys"] None) = Ok ([""; ""], []).
Proof. vm_compute. reflexivity. Qed.

(** ** The pool invariant *)

Lemma insertAt_perm p x l : insertAt p x l ≡ₚ x :: l.
Proof.
  revert p. induction l as [|y l IH]; intros [|p]; simpl; try reflexivity.
  rewrite IH. apply perm_swap.
Qed.

Lemma arrange_perm order l : arrange order l ≡ₚ l.
Proof.
  revert order. induction l as [|x l IH]; intros order; simpl; [reflexivity|].
  rewrite insertAt_perm. apply perm_skip, IH.
Qed.

Lemma probeFrom_sublist net isKey i l : probeFrom net isKey i l `sublist_of` l.
Proof.
  revert i. induction l as [|k l IH]; intros i; simpl; [constructor|].
  destruct (checkAlive (net i) isKey k) as [[|] [e|]];
    try (apply sublist_cons, IH). apply sublist_skip, IH.
Qed.

Lemma parseKeysAndURLs_Ok file ks us :
  parseKeysAndURLs file = Ok (ks, us) →
  ∃ lines, ks = credentialsOf (configured lines) ∧ us = endpointsOf (configured lines).
Proof.
  destruct file as [e|lines scanErr]; [discriminate|].
  rewrite parseKeysAndURLs_Scanned.
  destruct (decide _); [discriminate|]. destruct scanErr; [discriminate|].
  intros [= <- <-]. eauto.
Qed.

(** What a refresh that runs to its end leaves in the pool: survivors of
    the configured list, family by family. *)
Lemma runCheck_pool env w ks us :
  isChecking w = false →
  parseKeysAndURLs (apis_txt env) = Ok (ks, us) →
  ∃ ks' us', saku (runCheck env w).1.2 = {| keys := ks'; urls := us' |}
             ∧ (∃ l, ks' ≡ₚ l ∧ l `sublist_of` ks)
             ∧ (∃ l, us' ≡ₚ l ∧ l `sublist_of` us).
Proof.
  intros Hflag Hparse. unfold runCheck. rewrite Hflag, Hparse. simpl.
  do 2 eexists. split; [reflexivity|].
  split; eexists; (split; [apply arrange_perm | apply probeFrom_sublist]).
Qed.

(** A refresh that does not run to its end leaves the pool alone. *)
Lemma runCheck_pool_kept env w :
  isChecking w = true ∨ (∃ e, parseKeysAndURLs (apis_txt env) = Err e) →
  saku (runCheck env w).1.2 = saku w.
Proof.
  unfold runCheck. intros [Hflag|[e Hparse]].
  - now rewrite Hflag.
  - destruct (isChecking w); [reflexivity|]. now rewrite Hparse.
Qed.

Lemma runCheck_cases env w :
  saku (runCheck env w).1.2 = saku w
  ∨ ∃ ks us ks' us',
      parseKeysAndURLs (apis_txt env) = Ok (ks, us)
      ∧ saku (runCheck env w).1.2 = {| keys := ks'; urls := us' |}
      ∧ (∃ l, ks' ≡ₚ l ∧ l `sublist_of` ks)
      ∧ (∃ l, us' ≡ₚ l ∧ l `sublist_of` us).
Proof.
  destruct (isChecking w) eqn:Hflag.
  - left. apply runCheck_pool_kept. now left.
  - destruct (parseKeysAndURLs (apis_txt env)) as [[ks us]|e] eqn:Hparse.
    + right. destruct (runCheck_pool env w ks us Hflag Hparse) as (ks' & us' & H).
      exists ks, us, ks', us'. tauto.
    + left. apply runCheck_pool_kept. right. eauto.
Qed.

Lemma survivors_Forall (Q : string → Prop) `{∀ x, Decision (Q x)} cfg l l' :
  l' ≡ₚ l → l `sublist_of` filter Q cfg → Forall Q l'.
Proof.
  intros Hp Hs. rewrite Hp. apply Forall_forall. intros x Hin.
  apply (sublist_subseteq _ _ Hs), list_elem_of_filter in Hin. tauto.
Qed.

Lemma reachable_classified P w : reachable P w → classified (saku w).
Proof.
  induction 1 as [|env w Hr IH HP|isKey x w Hr IH].
  - split; constructor.
  - destruct (runCheck_cases env w) as [->|(ks & us & ks' & us' & Hparse & -> & Hk & Hu)];
      [exact IH|].
    apply parseKeysAndURLs_Ok in Hparse as (lines & -> & ->).
    destruct Hk as (lk & Hpk & Hsk), Hu as (lu & Hpu & Hsu).
    split; simpl.
    + eapply survivors_Forall; [exact Hpk | exact Hsk].
    + eapply survivors_Forall; [exact Hpu | exact Hsu].
  - destruct IH as [Hk Hu]. unfold evict. simpl. split.
    + rewrite Forall_forall in *. intros k Hin. apply Hk.
      now apply (removeKeyOrURL_subseteq isKey true x (saku w)).
    + rewrite Forall_forall in *. intros u Hin. apply Hu.
      now apply (removeKeyOrURL_subseteq isKey false x (saku w)).
Qed.

Lemma reachable_NoDup P w :
  (∀ file, P file → noDuplicateLines file) →
  reachable P w → NoDup (keys (saku w)) ∧ NoDup (urls (saku w)).
Proof.
  intros HP. induction 1 as [|env w Hr IH Hfile|isKey x w Hr IH].
  - split; constructor.
  - destruct (runCheck_cases env w) as [->|(ks & us & ks' & us' & Hparse & -> & Hk & Hu)];
      [exact IH|].
    apply HP in Hfile. apply Hfile, NoDup_app in Hparse as (Hnk & _ & Hnu).
    destruct Hk as (lk & Hpk & Hsk), Hu as (lu & Hpu & Hsu). simpl.
    rewrite Hpk, Hpu. eauto using sublist_NoDup.
  - destruct IH as [Hk Hu]. unfold evict. simpl. split.
    + now apply (removeKeyOrURL_NoDup isKey true).
    + now apply (removeKeyOrURL_NoDup isKey false).
Qed.

(** C4 (as the code has it): in every reachable pool state no upstream
    stands in both alive sets; and when every refresh read a configured
    list without a repeated entry, no upstream stands twice in a set
    either.  Both hold from the empty pool on and are kept by the
    replacement a refresh makes and by eviction. *)
Theorem pool_invariant (P : apisTxt → Prop) w :
  reachable P w →
  (∀ x, x ∈ keys (saku w) → x ∈ urls (saku w) → False)
  ∧ ((∀ file, P file → noDuplicateLines file) →
     NoDup (keys (saku w) ++ urls (saku w))).
Proof.
  intros Hr.
  assert (Hapart : ∀ x, x ∈ keys (saku w) → x ∈ urls (saku w) → False).
  { destruct (reachable_classified P w Hr) as [Hk Hu].
    rewrite Forall_forall in Hk, Hu. intros x Hxk Hxu.
    specialize (Hk x Hxk). specialize (Hu x Hxu). congruence. }
  split; [exact Hapart|].
  intros HP. destruct (reachable_NoDup P w HP Hr) as [Hk Hu].
  apply NoDup_app. split; [exact Hk|]. split; [exact Hapart | exact Hu].
Qed.

Lemma pool_invariant_witness :
  let P := λ file, file = Scanned ["k1"; "http://u1"; "# spare"; "k2:fx"] None in
  let w := evict true "k1"
             (runCheck (refreshAlive ["k1"; "http://u1"; "# spare"; "k2:fx"]) startWorld).1.2 in
  reachable P w
  ∧ saku w = {| keys := ["k2:fx"]; urls := ["http://u1"] |}
  ∧ (∀ x, x ∈ keys (saku w) → x ∈ urls (saku w) → False)
  ∧ NoDup (keys (saku w) ++ urls (saku w)).
Proof.
  cbv zeta.
  assert (Hr : reachable (λ file, file = Scanned ["k1"; "http://u1"; "# spare"; "k2:fx"] None)
                 (evict true "k1"
                    (runCheck (refreshAlive ["k1"; "http://u1"; "# spare"; "k2:fx"])
                       startWorld).1.2)).
  { apply reach_evict, reach_refresh; [apply reach_start | reflexivity]. }
  split; [exact Hr|]. split; [reflexivity|].
  destruct (pool_invariant _ _ Hr) as [Hapart Hnodup].
  split; [exact Hapart|]. apply Hnodup.
  intros file -> ks us Hparse. vm_compute in Hparse.
  injection Hparse as <- <-.
  repeat (constructor; [rewrite ?elem_of_cons, elem_of_nil; intuition discriminate|]).
  constructor.
Defined.

(** C4 fails as stated when the file names an upstream on two lines:
    after the refresh it stands twice in the alive set. *)
Lemma refresh_keeps_repeated_lines :
  let w := (runCheck (refreshAlive ["k"; "k"]) startWorld).1.2 in
  reachable (λ _, True) w ∧ keys (saku w) = ["k"; "k"] ∧ ¬ NoDup (keys (saku w)).
Proof.
  cbv zeta. split; [|split].
  - apply reach_refresh; [apply reach_start | exact I].
  - vm_compute. reflexivity.
  - intros Hnd. vm_compute in Hnd. apply NoDup_cons in Hnd as [Hin _].
    apply Hin. constructor.
Qed.

(** ** The probe *)

(** The probe never returns an error, and a credential is alive exactly
    when the call returns without error a response whose [Translations]
    is not [nil]. *)
Lemma checkAlive_key net key :
  checkAlive net true key =
  (match postDeepL net (deepLEndpoint key) key (deepLReq.mk ["test"] "zh" "") with
   | Ok lResp => bool_decide (deepLResp.Translations lResp ≠ None)
   | Err _ => false
   end, None).
Proof.
  unfold checkAlive.
  destruct (postDeepL _ _ _ _) as [[[trs|] msg]|e]; reflexivity.
Qed.

Lemma checkAlive_no_error net isKey keyOrURL : (checkAlive net isKey keyOrURL).2 = None.
Proof.
  unfold checkAlive. destruct isKey.
  - destruct (postDeepL _ _ _ _) as [[[trs|] msg]|e]; reflexivity.
  - destruct (postDeepLX _ _ _) as [r|e]; [|reflexivity].
    destruct (negb _); reflexivity.
Qed.

(** C8, where the code departs from it: a response with a translations
    array that has no entry makes the probe report alive, while the
    handler takes the same response for a failed translation. *)
Theorem checkAlive_no_entries_alive :
  checkAlive netNoEntries true "k1" = (true, None)
  ∧ outcome (attempt {| check := noRefresh; randFamily := 0; randIndex := 0;
                        net := netNoEntries |}
               false (Some (deepLXReq.mk "test" "en" "zh" "")) false
               {| saku := {| keys := ["k1"]; urls := [] |}; isChecking := false |})
    = GotoReTranslate NoTranslations.
Proof. split; reflexivity. Qed.

(** ** Refresh *)

(** C9: a refresh called while [isChecking] is set returns
    [errIsChecking] at once, sends nothing and leaves the pool and the
    flag as they are; a refresh that proceeds leaves the flag cleared
    however it ends, and when the configuration cannot be read it
    returns that error and keeps the pool. *)
Theorem runCheck_flag env w :
  let '(r, w', sent) := runCheck env w in
  if isChecking w
  then r = (0%Z, 0%Z, Some errIsChecking) ∧ w' = w ∧ sent = []
  else isChecking w' = false
       ∧ match parseKeysAndURLs (apis_txt env) with
         | Err err => r = (0%Z, 0%Z, Some err) ∧ saku w' = saku w ∧ sent = []
         | Ok (ks, us) =>
           r = (lenZ ks, lenZ us, None)
           ∧ keys (saku w') ⊆ ks ∧ urls (saku w') ⊆ us
         end.
Proof.
  unfold runCheck. destruct (isChecking w) eqn:Hflag; [auto|].
  destruct (parseKeysAndURLs (apis_txt env)) as [[ks us]|err]; simpl; [|auto].
  split; [reflexivity|]. split; [reflexivity|].
  split; intros x; rewrite arrange_perm; apply sublist_subseteq, probeFrom_sublist.
Qed.

(** ** One pass of the handler *)

(** C3: when both alive sets are empty at the top of a pass, the pass
    runs a refresh.  If the refresh returns [errIsChecking] the handler
    answers that a recheck is running; if it returns another error, the
    handler answers with that error; if it succeeds and both sets are
    still empty, the handler answers that no key or url is available; in
    the three cases the answer has status 500 and ends the request.
    Otherwise the pass goes on to select an upstream from the refreshed
    pool. *)
Theorem pool_exhaustion env enableCheckContainsChinese reqBody force w :
  bothEmpty (saku w) = true →
  let '(r, w', probes) := runCheck (check env) w in
  let a := attempt env enableCheckContainsChinese reqBody force w in
  match r.2 with
  | Some err =>
    outcome a =
      Return (HttpError (if decide (err = errIsChecking)
                         then "no available keys or urls, currently rechecking"
                         else Error err) StatusInternalServerError)
    ∧ world a = w' ∧ calls a = probes ∧ forceUseDeepL a = force
  | None =>
    if bothEmpty (saku w')
    then outcome a = Return (HttpError "no available keys and urls"
                               StatusInternalServerError)
         ∧ world a = w' ∧ calls a = probes ∧ forceUseDeepL a = force
    else a = dispatch env enableCheckContainsChinese reqBody force w' probes
  end.
Proof.
  intros Hempty. unfold attempt. rewrite Hempty.
  destruct (runCheck (check env) w) as [[r w'] probes]. cbv zeta.
  destruct r.2 as [err|].
  - destruct (decide (err = errIsChecking)); simpl; auto.
  - destruct (bothEmpty (saku w')); simpl; auto.
Qed.

Lemma pool_exhaustion_witness :
  let a := attempt (passAlive ["k1"]) false (Some (deepLXReq.mk "test" "en" "zh" ""))
             false busyWorld in
  bothEmpty (saku busyWorld) = true
  ∧ outcome a = Return (HttpError "no available keys or urls, currently rechecking"
                          StatusInternalServerError)
  ∧ world a = busyWorld ∧ calls a = [] ∧ forceUseDeepL a = false.
Proof.
  split; [reflexivity|].
  exact (pool_exhaustion (passAlive ["k1"]) false
           (Some (deepLXReq.mk "test" "en" "zh" "")) false busyWorld eq_refl).
Defined.

(** C7 (as the code has it): a body that does not decode is answered
    with "invalid request body", status 400, by the first pass.  When an
    alive set is not empty, nothing has been sent and the pool is as it
    was.  When both are empty the pass first runs the refresh of the
    pool-exhaustion step, probes included, and the body is looked at
    only if that refresh leaves an upstream alive. *)
Theorem malformed_body env envs enableCheckContainsChinese w :
  handleForward (env :: envs) enableCheckContainsChinese (Read None) w =
  if bothEmpty (saku w) then
    let '(r, w', probes) := runCheck (check env) w in
    match r.2 with
    | Some err =>
      (Responded (HttpError (if decide (err = errIsChecking)
                             then "no available keys or urls, currently rechecking"
                             else Error err) StatusInternalServerError), w', probes)
    | None =>
      if bothEmpty (saku w')
      then (Responded (HttpError "no available keys and urls"
                         StatusInternalServerError), w', probes)
      else (Responded (HttpError "invalid request body" StatusBadRequest), w', probes)
    end
  else (Responded (HttpError "invalid request body" StatusBadRequest), w, []).
Proof.
  unfold handleForward, reTranslate, attempt.
  destruct (bothEmpty (saku w)); [|reflexivity].
  destruct (runCheck (check env) w) as [[r w'] probes].
  destruct r.2 as [err|].
  - destruct (decide (err = errIsChecking)); simpl; now rewrite app_nil_r.
  - destruct (bothEmpty (saku w')); simpl; now rewrite app_nil_r.
Qed.

(** C7 fails as stated on the empty pool: the malformed body is answered
    only after a refresh has probed the configured upstreams. *)
Lemma malformed_body_empty_pool_probes :
  handleForward [passAlive ["k1"; "http://u1"]] false (Read None) startWorld =
  (Responded (HttpError "invalid request body" StatusBadRequest),
   {| saku := {| keys := ["k1"]; urls := ["http://u1"] |}; isChecking := false |},
   [CallDeepL "https://api.deepl.com/v2/translate" "k1" (deepLReq.mk ["test"] "zh" "");
    CallDeepLX "http://u1" (deepLXReq.mk "test" "en" "zh" "")]).
Proof. vm_compute. reflexivity. Qed.

(** ** The forced family *)

(** A pass entered with the flag set leaves it set, takes the branch of
    the keys, and so never leaves through the third or the fourth
    [goto]. *)
Lemma forced_pass env enableCheckContainsChinese reqBody w :
  let a := attempt env enableCheckContainsChinese reqBody true w in
  forceUseDeepL a = true
  ∧ outcome a ≠ GotoReTranslate MissingTranslation
  ∧ outcome a ≠ GotoReTranslate URLFailed.
Proof.
  cbv zeta. pass_cases; (split; [reflexivity|split; discriminate]).
Qed.

(** The flag is set by the fourth [goto] and by nothing else. *)
Lemma pass_sets_force env enableCheckContainsChinese reqBody force w :
  let a := attempt env enableCheckContainsChinese reqBody force w in
  (outcome a = GotoReTranslate MissingTranslation → forceUseDeepL a = true)
  ∧ (forceUseDeepL a = true →
     force = true ∨ outcome a = GotoReTranslate MissingTranslation).
Proof.
  cbv zeta. pass_cases; split; intros; try discriminate; auto.
Qed.

(** The passes of one request share the flag [-c] and the body. *)
Section Passes.
Context (enableCheckContainsChinese : bool) (reqBody : option deepLXReq.t).

Lemma reTranslate_pass envs force w i a :
  reTranslate envs enableCheckContainsChinese reqBody force w !! i = Some a →
  ∃ env force' w', a = attempt env enableCheckContainsChinese reqBody force' w'.
Proof.
  revert force w i. induction envs as [|env envs IH]; intros force w i; simpl.
  - rewrite lookup_nil; discriminate.
  - destruct i as [|i]; simpl.
    + intros [= <-]. eauto.
    + destruct (outcome (attempt _ _ _ _ _)); [rewrite lookup_nil; discriminate | apply IH | rewrite lookup_nil; discriminate].
Qed.

Lemma reTranslate_forced envs w j b :
  reTranslate envs enableCheckContainsChinese reqBody true w !! j = Some b →
  forceUseDeepL b = true
  ∧ outcome b ≠ GotoReTranslate MissingTranslation
  ∧ outcome b ≠ GotoReTranslate URLFailed.
Proof.
  revert w j. induction envs as [|env envs IH]; intros w j; simpl.
  - rewrite lookup_nil; discriminate.
  - destruct j as [|j]; simpl.
    + intros [= <-]. apply forced_pass.
    + destruct (forced_pass env enableCheckContainsChinese reqBody w) as [-> _].
      destruct (outcome (attempt _ _ _ _ _)); [rewrite lookup_nil; discriminate | apply IH | rewrite lookup_nil; discriminate].
Qed.

Lemma reTranslate_force_kept envs force w i j a b :
  reTranslate envs enableCheckContainsChinese reqBody force w !! i = Some a →
  reTranslate envs enableCheckContainsChinese reqBody force w !! j = Some b →
  i < j →
  forceUseDeepL a = true →
  forceUseDeepL b = true
  ∧ outcome b ≠ GotoReTranslate MissingTranslation
  ∧ outcome b ≠ GotoReTranslate URLFailed.
Proof.
  revert force w i j. induction envs as [|env envs IH]; intros force w i j; simpl.
  - rewrite lookup_nil; discriminate.
  - destruct j as [|j]; [lia|]. destruct i as [|i]; simpl.
    + intros [= <-] Hb _ Hforce. rewrite Hforce in Hb.
      destruct (outcome (attempt _ _ _ _ _)); try (rewrite lookup_nil in Hb; discriminate).
      eapply reTranslate_forced, Hb.
    + intros Ha Hb Hlt. destruct (outcome (attempt _ _ _ _ _)); try (rewrite lookup_nil in Hb; discriminate).
      eapply IH; eauto. lia.
Qed.

End Passes.

(** A pass that draws the endpoint family, gets from the endpoint a
    text without a Han character and finds a key alive, jumps back with
    the flag set; it evicts nothing. *)
Lemma missing_translation_forces env lxReq w urlIndex u lxResp :
  selectFamily env false (saku w) = 1%Z →
  IntN (randIndex env) (length (urls (saku w))) = Some urlIndex →
  urls (saku w) !! urlIndex = Some u →
  postDeepLX (net env) u lxReq = Ok lxResp →
  deepLXResp.Code lxResp = StatusOK →
  containsChinese (deepLXResp.Data lxResp) = false →
  keys (saku w) ≠ [] →
  attempt env true (Some lxReq) false w =
  {| outcome := GotoReTranslate MissingTranslation; forceUseDeepL := true;
     world := w; calls := [CallDeepLX u lxReq] |}.
Proof.
  intros Hsel Hidx Hu Hpost Hcode Hhan Hkeys.
  unfold attempt, bothEmpty.
  destruct (keys (saku w)) as [|k ks] eqn:Hk; [congruence|]. simpl.
  unfold dispatch. rewrite Hsel. simpl.
  unfold translateWithURL. rewrite Hidx, Hu, Hpost, Hcode. simpl.
  unfold checkContainsChinese. rewrite Hhan, Hk. reflexivity.
Qed.

(** C1 (as the code has it): with the check enabled, a pass that used
    an endpoint, got a text without a Han character and finds a key
    alive sets [forceUseDeepL] and jumps back.  The flag is never
    cleared: every later pass of the request ends with it set, takes the
    branch of the keys, and does not jump back for a missing translation
    again. *)
Theorem forced_override_persists :
  (∀ env lxReq w urlIndex u lxResp,
     selectFamily env false (saku w) = 1%Z →
     IntN (randIndex env) (length (urls (saku w))) = Some urlIndex →
     urls (saku w) !! urlIndex = Some u →
     postDeepLX (net env) u lxReq = Ok lxResp →
     deepLXResp.Code lxResp = StatusOK →
     containsChinese (deepLXResp.Data lxResp) = false →
     keys (saku w) ≠ [] →
     attempt env true (Some lxReq) false w =
     {| outcome := GotoReTranslate MissingTranslation; forceUseDeepL := true;
        world := w; calls := [CallDeepLX u lxReq] |})
  ∧ (∀ envs enableCheckContainsChinese reqBody w i j a b,
       reTranslate envs enableCheckContainsChinese reqBody false w !! i = Some a →
       reTranslate envs enableCheckContainsChinese reqBody false w !! j = Some b →
       i < j →
       outcome a = GotoReTranslate MissingTranslation →
       forceUseDeepL a = true ∧ forceUseDeepL b = true
       ∧ outcome b ≠ GotoReTranslate MissingTranslation
       ∧ outcome b ≠ GotoReTranslate URLFailed).
Proof.
  split; [exact missing_translation_forces|].
  intros envs enable reqBody w i j a b Ha Hb Hlt Hout.
  assert (Hforce : forceUseDeepL a = true).
  { destruct (reTranslate_pass _ _ _ _ _ _ _ Ha) as (env & f & w' & ->).
    now apply pass_sets_force. }
  split; [exact Hforce|].
  exact (reTranslate_force_kept _ _ _ _ _ _ _ _ _ Ha Hb Hlt Hforce).
Qed.

Lemma forced_override_persists_witness :
  let passes := reTranslate threePasses true (Some hello) false
                  (pool ["k1"; "k2"] ["http://u1"]) in
  let a := {| outcome := GotoReTranslate MissingTranslation; forceUseDeepL := true;
              world := pool ["k1"; "k2"] ["http://u1"];
              calls := [CallDeepLX "http://u1" hello] |} in
  let b := {| outcome := Return (HttpOK (deepLXResp.mk StatusOK 0 "你好" ["你好"]));
              forceUseDeepL := true;
              world := pool ["k2"] ["http://u1"];
              calls := [CallDeepL "https://api.deepl.com/v2/translate" "k2"
                          (deepLReq.mk ["hello"] "zh" "")] |} in
  passes !! 0 = Some a ∧ passes !! 2 = Some b ∧ 0 < 2
  ∧ outcome a = GotoReTranslate MissingTranslation
  ∧ forceUseDeepL a = true ∧ forceUseDeepL b = true
  ∧ outcome b ≠ GotoReTranslate MissingTranslation
  ∧ outcome b ≠ GotoReTranslate URLFailed.
Proof.
  cbv zeta.
  split; [reflexivity|]. split; [reflexivity|]. split; [lia|]. split; [reflexivity|].
  refine (proj2 forced_override_persists threePasses true (Some hello)
            (pool ["k1"; "k2"] ["http://u1"]) 0 2 _ _ eq_refl eq_refl _ eq_refl).
  lia.
Defined.

(** C1 fails as stated: the flag set by the first pass is still set
    after the forced pass has failed, and the third pass, which would
    draw the endpoint, takes the second key. *)
Lemma forced_override_not_consumed :
  let passes := reTranslate threePasses true (Some hello) false
                  (pool ["k1"; "k2"] ["http://u1"]) in
  outcome <$> passes =
    [ GotoReTranslate MissingTranslation; GotoReTranslate KeyPostFailed;
      Return (HttpOK (deepLXResp.mk StatusOK 0 "你好" ["你好"])) ]
  ∧ forceUseDeepL <$> passes = [true; true; true]
  ∧ keys ∘ saku ∘ world <$> passes = [["k1"; "k2"]; ["k2"]; ["k2"]]
  ∧ calls <$> passes !! 2 =
      Some [CallDeepL "https://api.deepl.com/v2/translate" "k2"
              (deepLReq.mk ["hello"] "zh" "")]
  ∧ selectFamily (pass 1 0 (upstreams (translated "你好") (relayed "hello"))) false
      {| keys := ["k2"]; urls := ["http://u1"] |} = 1%Z.
Proof. vm_compute. repeat split; reflexivity. Qed.

(** ** Selection *)

Lemma IntN_lookup {A} draw (l : list A) :
  l ≠ [] → ∃ i x, IntN draw (length l) = Some i ∧ l !! i = Some x.
Proof.
  intros Hne. unfold IntN.
  destruct l as [|y l]; [congruence|]. simpl Nat.eqb.
  assert (Hlt : draw mod length (y :: l) < length (y :: l))
    by (apply Nat.mod_upper_bound; discriminate).
  destruct (lookup_lt_is_Some_2 _ _ Hlt) as [x Hx]. eauto.
Qed.

(** The check panics only where the fallback does. *)
Lemma checkContainsChinese_panic env enable lxReq force use lxResp w sent :
  let a := checkContainsChinese env enable lxReq force use lxResp w sent in
  outcome a = Panic →
  enable = true
  ∧ googleTranslate (net env) (deepLXReq.Text lxReq) (deepLXReq.SourceLang lxReq)
      (deepLXReq.TargetLang lxReq) = Panics
  ∧ last (calls a) = Some (CallGoogle (deepLXReq.Text lxReq) (deepLXReq.SourceLang lxReq)
                             (deepLXReq.TargetLang lxReq)).
Proof.
  cbv zeta. unfold checkContainsChinese.
  destruct enable; simpl andb; cbv iota; [|discriminate].
  destruct (negb _); [|discriminate].
  destruct (_ && _); [discriminate|].
  destruct (googleTranslate _ _ _ _) eqn:Hg; try discriminate.
  intros _. simpl. now rewrite last_snoc.
Qed.

(** With a key alive, the branch of the keys panics only where the
    fallback does: the draw of an index and the read at it succeed. *)
Lemma translateWithKey_panic env enable lxReq force use w sent :
  let a := translateWithKey env enable lxReq force use w sent in
  keys (saku w) ≠ [] → outcome a = Panic →
  enable = true
  ∧ googleTranslate (net env) (deepLXReq.Text lxReq) (deepLXReq.SourceLang lxReq)
      (deepLXReq.TargetLang lxReq) = Panics
  ∧ last (calls a) = Some (CallGoogle (deepLXReq.Text lxReq) (deepLXReq.SourceLang lxReq)
                             (deepLXReq.TargetLang lxReq)).
Proof.
  cbv zeta. intros Hk. unfold translateWithKey.
  destruct (IntN_lookup (randIndex env) (keys (saku w)) Hk) as (i & x & -> & ->).
  destruct (postDeepL _ _ _ _) as [lResp|]; [|discriminate].
  destruct (default [] _); [discriminate|]. apply checkContainsChinese_panic.
Qed.

Lemma translateWithURL_panic env enable lxReq force use w sent :
  let a := translateWithURL env enable lxReq force use w sent in
  urls (saku w) ≠ [] → outcome a = Panic →
  enable = true
  ∧ googleTranslate (net env) (deepLXReq.Text lxReq) (deepLXReq.SourceLang lxReq)
      (deepLXReq.TargetLang lxReq) = Panics
  ∧ last (calls a) = Some (CallGoogle (deepLXReq.Text lxReq) (deepLXReq.SourceLang lxReq)
                             (deepLXReq.TargetLang lxReq)).
Proof.
  cbv zeta. intros Hu. unfold translateWithURL.
  destruct (IntN_lookup (randIndex env) (urls (saku w)) Hu) as (i & x & -> & ->).
  destruct (postDeepLX _ _ _); [|discriminate].
  destruct (negb _); [discriminate|]. apply checkContainsChinese_panic.
Qed.

(** Without the flag, [use] names a family that has an upstream alive. *)
Lemma selectFamily_populated env saku :
  bothEmpty saku = false →
  (selectFamily env false saku = 0%Z ∧ keys saku ≠ [])
  ∨ (selectFamily env false saku = 1%Z ∧ urls saku ≠ []).
Proof.
  unfold bothEmpty, selectFamily. simpl negb. cbv iota.
  destruct (keys saku) as [|k ks], (urls saku) as [|u us]; cbn -[Nat.modulo];
    try discriminate; intros _; auto.
  destruct (Nat.mod_bound_pos (randFamily env) 2) as [_ Hlt]; [lia..|].
  destruct (randFamily env mod 2) as [|[|n]]; [auto | auto | lia].
Qed.

(** The family selected without the flag has an upstream alive, so the
    draw of an index and the read at it succeed. *)
Lemma unforced_selection env saku :
  bothEmpty saku = false →
  let use := selectFamily env false saku in
  let family := if (use =? 0)%Z then keys saku else urls saku in
  ∃ i x, IntN (randIndex env) (length family) = Some i ∧ family !! i = Some x.
Proof.
  intros Hne. cbv zeta.
  destruct (selectFamily_populated env saku Hne) as [[-> Hk]|[-> Hu]]; simpl;
    now apply IntN_lookup.
Qed.

(** Without the flag, a pass panics only where the fallback does. *)
Lemma unforced_pass_panic env enableCheckContainsChinese reqBody w :
  let a := attempt env enableCheckContainsChinese reqBody false w in
  outcome a = Panic →
  ∃ lxReq, reqBody = Some lxReq ∧ enableCheckContainsChinese = true
    ∧ googleTranslate (net env) (deepLXReq.Text lxReq) (deepLXReq.SourceLang lxReq)
        (deepLXReq.TargetLang lxReq) = Panics
    ∧ last (calls a) = Some (CallGoogle (deepLXReq.Text lxReq) (deepLXReq.SourceLang lxReq)
                               (deepLXReq.TargetLang lxReq)).
Proof.
  cbv zeta.
  assert (Hd : ∀ w' sent, bothEmpty (saku w') = false →
            let a := dispatch env enableCheckContainsChinese reqBody false w' sent in
            outcome a = Panic →
            ∃ lxReq, reqBody = Some lxReq ∧ enableCheckContainsChinese = true
              ∧ googleTranslate (net env) (deepLXReq.Text lxReq)
                  (deepLXReq.SourceLang lxReq) (deepLXReq.TargetLang lxReq) = Panics
              ∧ last (calls a)
                = Some (CallGoogle (deepLXReq.Text lxReq) (deepLXReq.SourceLang lxReq)
                          (deepLXReq.TargetLang lxReq))).
  { intros w' sent Hne. cbv zeta. unfold dispatch.
    destruct reqBody as [lxReq|]; [|discriminate].
    destruct (selectFamily_populated env (saku w') Hne) as [[-> Hk]|[-> Hu]]; simpl;
      intros Hp; exists lxReq; (split; [reflexivity|]).
    - now apply translateWithKey_panic.
    - now apply translateWithURL_panic. }
  unfold attempt. destruct (bothEmpty (saku w)) eqn:Hempty; [|now apply Hd].
  destruct (runCheck (check env) w) as [[r w'] probes].
  destruct r.2 as [err|].
  - destruct (decide _); discriminate.
  - destruct (bothEmpty (saku w')) eqn:Hempty'; [discriminate | now apply Hd].
Qed.

(** With the flag set, a pass that finds no key alive while an endpoint
    is alive panics at the draw of the key index. *)
Lemma forced_pass_without_key_panics env enableCheckContainsChinese lxReq w :
  keys (saku w) = [] → urls (saku w) ≠ [] →
  outcome (attempt env enableCheckContainsChinese (Some lxReq) true w) = Panic.
Proof.
  intros Hk Hu. unfold attempt, bothEmpty. rewrite Hk.
  destruct (urls (saku w)) as [|u us]; [congruence|]. simpl.
  unfold dispatch, translateWithKey. simpl. now rewrite Hk.
Qed.

(** C2, where the code departs from it: the endpoint passes the text
    through and sets the flag, the only key fails and is evicted, and
    the third pass, forced to the keys, draws an index into the empty
    slice of keys. *)
Theorem forced_selection_panics :
  handleForward threePasses true (Read (Some hello)) (pool ["k1"] ["http://u1"]) =
  (Panicked, pool [] ["http://u1"],
   [CallDeepLX "http://u1" hello;
    CallDeepL "https://api.deepl.com/v2/translate" "k1" (deepLReq.mk ["hello"] "zh" "")]).
Proof. vm_compute. reflexivity. Qed.

(** ** The completeness check *)






Lemma ending_Responded passes r :
  ending passes = Responded r →
  ∃ a, last passes = Some a ∧ outcome a = Return r.
Proof.
  unfold ending. destruct (last passes) as [a|]; [|discriminate].
  destruct (outcome a) eqn:Ho; try discriminate. intros [= ->]. eauto.
Qed.




(** ** Selection and eviction in one pass *)

(** Without the flag, the selection of a pass is in bounds: the family
    selected has an upstream alive, so the draw of an index and the read
    at it succeed; and the only panic of such a pass is the one of the
    fallback, which it has called last. *)
Theorem unforced_selection_in_bounds :
  (∀ env saku, bothEmpty saku = false →
     let use := selectFamily env false saku in
     let family := if (use =? 0)%Z then keys saku else urls saku in
     ∃ i x, IntN (randIndex env) (length family) = Some i ∧ family !! i = Some x)
  ∧ (∀ env enableCheckContainsChinese reqBody w,
       let a := attempt env enableCheckContainsChinese reqBody false w in
       outcome a = Panic →
       ∃ lxReq, reqBody = Some lxReq ∧ enableCheckContainsChinese = true
         ∧ googleTranslate (net env) (deepLXReq.Text lxReq) (deepLXReq.SourceLang lxReq)
             (deepLXReq.TargetLang lxReq) = Panics
         ∧ last (calls a)
           = Some (CallGoogle (deepLXReq.Text lxReq) (deepLXReq.SourceLang lxReq)
                     (deepLXReq.TargetLang lxReq))).
Proof. split; [exact unforced_selection | exact unforced_pass_panic]. Qed.

(** An unforced pass that panics: the endpoint passes the text through,
    no key is alive, and the fallback answers [null] for the text. *)
Lemma unforced_selection_in_bounds_witness :
  let env := pass 1 0 (nullFallback (upstreams timeout (relayed "hello"))) in
  let a := attempt env true (Some hello) false (pool [] ["http://u1"]) in
  outcome a = Panic
  ∧ calls a = [CallDeepLX "http://u1" hello; CallGoogle "hello" "en" "zh"]
  ∧ ∃ lxReq, Some hello = Some lxReq ∧ true = true
      ∧ googleTranslate (net env) (deepLXReq.Text lxReq) (deepLXReq.SourceLang lxReq)
          (deepLXReq.TargetLang lxReq) = Panics
      ∧ last (calls a)
        = Some (CallGoogle (deepLXReq.Text lxReq) (deepLXReq.SourceLang lxReq)
                  (deepLXReq.TargetLang lxReq)).
Proof.
  cbv zeta. split; [reflexivity|]. split; [reflexivity|].
  exact (proj2 unforced_selection_in_bounds
           (pass 1 0 (nullFallback (upstreams timeout (relayed "hello")))) true
           (Some hello) (pool [] ["http://u1"]) eq_refl).
Defined.

(** What one pass sends after the probes of its refresh goes to the pool
    as it is at the selection. *)
Lemma dispatch_calls env enable reqBody force w sent :
  ∃ new, calls (dispatch env enable reqBody force w sent) = sent ++ new
         ∧ Forall (toPool (saku w)) new.
Proof.
  unfold dispatch, translateWithKey, translateWithURL, checkContainsChinese.
  repeat case_match; simpl; rewrite <- ?(assoc_L (++));
    first [ exists []; split; [now rewrite app_nil_r | constructor]
          | eexists; split; [reflexivity|]; repeat constructor;
            eapply list_elem_of_lookup_2; eassumption ].
Qed.

Lemma attempt_calls env enable reqBody force w :
  let refreshed := runCheck (check env) w in
  let atSelection := if bothEmpty (saku w) then refreshed.1.2 else w in
  ∃ new, calls (attempt env enable reqBody force w)
         = (if bothEmpty (saku w) then refreshed.2 else []) ++ new
         ∧ Forall (toPool (saku atSelection)) new.
Proof.
  cbv zeta. unfold attempt. destruct (bothEmpty (saku w)); [|apply dispatch_calls].
  destruct (runCheck (check env) w) as [[r w'] probes]. simpl.
  destruct r.2 as [err|].
  - exists []. split; [|constructor]. rewrite app_nil_r. now destruct (decide _).
  - destruct (bothEmpty (saku w')); [|apply dispatch_calls].
    exists []. split; [now rewrite app_nil_r | constructor].
Qed.

Lemma last_world_cons (a : Attempt) passes w :
  default w (world <$> last (a :: passes)) = default (world a) (world <$> last passes).
Proof. rewrite last_cons. now destruct (last passes). Qed.

(** Pass [i] of a request is a pass from the pool the pass before it
    left. *)
Lemma reTranslate_lookup enable reqBody envs force w i env a :
  envs !! i = Some env →
  reTranslate envs enable reqBody force w !! i = Some a →
  ∃ force', a = attempt env enable reqBody force'
                  (default w (world <$> last (take i (reTranslate envs enable reqBody
                                                        force w)))).
Proof.
  revert force w i. induction envs as [|env0 envs IH]; intros force w i; simpl.
  - rewrite lookup_nil; discriminate.
  - destruct i as [|i]; simpl.
    + intros [= ->] [= <-]. eauto.
    + intros Henv Ha.
      destruct (outcome (attempt env0 enable reqBody force w));
        try (rewrite lookup_nil in Ha; discriminate).
      destruct (IH _ _ _ Henv Ha) as [force' ->]. exists force'.
      now rewrite last_world_cons.
Qed.

(** The upstream a pass calls is one the pool holds when that pass
    selects it: pass [i] of a request, after the probes of the refresh it
    runs when it finds the pool empty, sends only to members of the pool
    as the pass before it left it (and as that refresh refilled it),
    whatever the pool was when the request came in. *)
Theorem selected_upstream_in_pool envs enableCheckContainsChinese reqBody force w i env a :
  let passes := reTranslate envs enableCheckContainsChinese reqBody force w in
  envs !! i = Some env → passes !! i = Some a →
  let before := default w (world <$> last (take i passes)) in
  let refreshed := runCheck (check env) before in
  let atSelection := if bothEmpty (saku before) then refreshed.1.2 else before in
  ∃ sent, calls a = (if bothEmpty (saku before) then refreshed.2 else []) ++ sent
          ∧ Forall (toPool (saku atSelection)) sent.
Proof.
  cbv zeta. intros Henv Ha.
  destruct (reTranslate_lookup _ _ _ _ _ _ _ _ Henv Ha) as [force' ->].
  apply attempt_calls.
Qed.

(** The third pass of the request of C1 is sent to the second key, the
    only one the pool holds once the second pass has evicted the first. *)
Lemma selected_upstream_in_pool_witness :
  let passes := reTranslate threePasses true (Some hello) false
                  (pool ["k1"; "k2"] ["http://u1"]) in
  let a := attempt (pass 1 0 (upstreams (translated "你好") (relayed "hello"))) true
             (Some hello) true (pool ["k2"] ["http://u1"]) in
  passes !! 2 = Some a
  ∧ default (pool ["k1"; "k2"] ["http://u1"]) (world <$> last (take 2 passes))
    = pool ["k2"] ["http://u1"]
  ∧ calls a = [CallDeepL "https://api.deepl.com/v2/translate" "k2"
                 (deepLReq.mk ["hello"] "zh" "")]
  ∧ ∃ sent, calls a = [] ++ sent
      ∧ Forall (toPool {| keys := ["k2"]; urls := ["http://u1"] |}) sent.
Proof.
  cbv zeta. split; [reflexivity|]. split; [reflexivity|]. split; [reflexivity|].
  exact (selected_upstream_in_pool threePasses true (Some hello) false
           (pool ["k1"; "k2"] ["http://u1"]) 2
           (pass 1 0 (upstreams (translated "你好") (relayed "hello")))
           (attempt (pass 1 0 (upstreams (translated "你好") (relayed "hello"))) true
              (Some hello) true (pool ["k2"] ["http://u1"]))
           eq_refl eq_refl).
Defined.

(** What a pass does to the pool: it evicts the upstream it has just
    called, and no other, when the call failed (first and third [goto]);
    a key that answered with no translation (second [goto]) stays, and so
    does whatever answered a text that fails the check. *)
Theorem dispatch_evicts_on_failure env enableCheckContainsChinese reqBody force w sent :
  let a := dispatch env enableCheckContainsChinese reqBody force w sent in
  match outcome a with
  | GotoReTranslate KeyPostFailed =>
    ∃ key lReq err, calls a = sent ++ [CallDeepL (deepLEndpoint key) key lReq]
      ∧ postDeepL (net env) (deepLEndpoint key) key lReq = Err err
      ∧ key ∈ keys (saku w) ∧ world a = evict true key w
  | GotoReTranslate URLFailed =>
    ∃ u lxReq, reqBody = Some lxReq ∧ calls a = sent ++ [CallDeepLX u lxReq]
      ∧ (∀ lxResp, postDeepLX (net env) u lxReq = Ok lxResp →
           deepLXResp.Code lxResp ≠ StatusOK)
      ∧ u ∈ urls (saku w) ∧ world a = evict false u w
  | _ => world a = w
  end.
Proof.
  cbv zeta. unfold dispatch, translateWithKey, translateWithURL, checkContainsChinese.
  repeat case_match; simpl in *; simplify_eq; try reflexivity;
    repeat eexists; try eassumption;
    first [ eapply list_elem_of_lookup_2; eassumption
          | intros lxResp Hpost; rewrite Hpost in *; simplify_eq;
            try (apply Z.eqb_neq, negb_true_iff; assumption) ].
Qed.

(** ** Two scenarios, for every draw *)

Lemma IntN_one draw : IntN draw 1 = Some 0.
Proof. unfold IntN. simpl Nat.eqb. cbv iota. now rewrite Nat.mod_1_r. Qed.

Lemma family_draw d :
  (Z.of_nat (d mod 2) =? 0)%Z = true
  ∨ (Z.of_nat (d mod 2) =? 0)%Z = false ∧ (Z.of_nat (d mod 2) =? 1)%Z = true.
Proof.
  destruct (Nat.mod_bound_pos d 2) as [_ Hlt]; [lia..|].
  destruct (d mod 2) as [|[|n]]; [auto | auto | lia].
Qed.

Ltac first_pass d H :=
  cbv zeta; unfold handleForward, reTranslate, attempt, dispatch, selectFamily;
  cbn -[Nat.modulo Z.of_nat Z.eqb IntN translateWithKey translateWithURL];
  destruct (family_draw d) as [->|[-> H]].

Ltac with_key :=
  unfold translateWithKey; cbn -[IntN Nat.modulo]; rewrite IntN_one; cbn -[IntN Nat.modulo].

Ltac with_url :=
  unfold translateWithURL; cbn -[IntN Nat.modulo]; rewrite IntN_one; cbn -[IntN Nat.modulo].

(** One key that translates and one endpoint that is down: the request
    is answered by the key, at once or after one pass that fails on the
    endpoint and evicts it. *)
Theorem endpoint_down_key_answers d1 i1 d2 i2 enableCheckContainsChinese :
  let n := upstreams (translated "你好") timeout in
  let run := handleForward [pass d1 i1 n; pass d2 i2 n] enableCheckContainsChinese
               (Read (Some hello)) (pool ["k1"] ["http://u1"]) in
  run.1.1 = Responded (HttpOK (deepLXResp.mk StatusOK 0 "你好" ["你好"]))
  ∧ (run.2 = [CallDeepL "https://api.deepl.com/v2/translate" "k1"
                (deepLReq.mk ["hello"] "zh" "")]
       ∧ run.1.2 = pool ["k1"] ["http://u1"]
     ∨ run.2 = [CallDeepLX "http://u1" hello;
                CallDeepL "https://api.deepl.com/v2/translate" "k1"
                  (deepLReq.mk ["hello"] "zh" "")]
       ∧ run.1.2 = pool ["k1"] []).
Proof.
  first_pass d1 Hurl.
  - with_key. destruct enableCheckContainsChinese; cbn; auto.
  - with_url. with_key. destruct enableCheckContainsChinese; cbn; auto.
Qed.

(** With the check enabled, one endpoint that passes the text through
    and one key that translates: the answer is the translation of the
    key, and the endpoint stays in the pool. *)
Theorem passthrough_endpoint_kept d1 i1 d2 i2 :
  let n := upstreams (translated "你好") (relayed "hello") in
  let run := handleForward [pass d1 i1 n; pass d2 i2 n] true
               (Read (Some hello)) (pool ["k1"] ["http://u1"]) in
  run.1.1 = Responded (HttpOK (deepLXResp.mk StatusOK 0 "你好" ["你好"]))
  ∧ run.1.2 = pool ["k1"] ["http://u1"].
Proof.
  first_pass d1 Hurl.
  - with_key. auto.
  - with_url. unfold checkContainsChinese.
    cbn -[IntN Nat.modulo Z.of_nat Z.eqb]. rewrite Hurl.
    cbn -[IntN Nat.modulo]. with_key. auto.
Qed.

(** ** Eviction, exactly *)

(** [removeKeyOrURL] returns [true] exactly when the slice of the family
    holds the upstream; it then takes one occurrence out of that slice,
    the order apart, and otherwise changes nothing; the slice of the
    other family is never touched. *)
Theorem removeKeyOrURL_effect isKey keyOrURL saku :
  let '(evicted, saku') := removeKeyOrURL isKey keyOrURL saku in
  evicted = bool_decide (keyOrURL ∈ family isKey saku)
  ∧ family (negb isKey) saku' = family (negb isKey) saku
  ∧ if evicted
    then keyOrURL :: family isKey saku' ≡ₚ family isKey saku
         ∧ S (length (family isKey saku')) = length (family isKey saku)
    else saku' = saku.
Proof.
  destruct (decide (keyOrURL ∈ family isKey saku)) as [Hin|Hout].
  - destruct (removeKeyOrURL_present _ _ _ Hin) as (saku' & -> & Hp & Hother).
    rewrite bool_decide_eq_true_2 by assumption.
    repeat split; try assumption. now rewrite <- Hp.
  - rewrite removeKeyOrURL_absent by assumption.
    rewrite bool_decide_eq_false_2 by assumption. auto.
Qed.

(** ** Errors of the configuration *)

(** When the scanner stops on an error, [parseKeysAndURLs] returns that
    error and drops the entries read before it; but when no entry was
    read before it, the error returned is the one of the empty file. *)
Theorem parseKeysAndURLs_scan_error lines err :
  parseKeysAndURLs (Scanned lines (Some err)) =
  Err (if decide (configured lines = []) then errApisTxtIsEmpty else err).
Proof.
  rewrite parseKeysAndURLs_Scanned. now destruct (decide (configured lines = [])).
Qed.

(** ** What a refresh puts in the pool *)

Lemma runCheck_success env w ks us :
  isChecking w = false →
  parseKeysAndURLs (apis_txt env) = Ok (ks, us) →
  runCheck env w =
  ((lenZ ks, lenZ us, None),
   {| saku := {| keys := arrange (keysOrder env) (probeFrom (probeNet env) true 0 ks);
                 urls := arrange (urlsOrder env) (probeFrom (probeNet env) false 0 us) |};
      isChecking := false |},
   map (probeCall true) ks ++ map (probeCall false) us).
Proof. intros Hflag Hparse. unfold runCheck. now rewrite Hflag, Hparse. Qed.



(** ** The refresh endpoint *)



(** ** Retries *)

Lemma selectFamily_keys_only env force saku :
  keys saku ≠ [] → urls saku = [] → selectFamily env force saku = 0%Z.
Proof.
  intros Hk Hu. unfold selectFamily. rewrite Hu.
  destruct force, (keys saku); simpl; congruence.
Qed.

Lemma no_entries_pass env enable lxReq force w :
  answersNoEntries env → keys (saku w) ≠ [] → urls (saku w) = [] →
  ∃ call, attempt env enable (Some lxReq) force w =
          {| outcome := GotoReTranslate NoTranslations; forceUseDeepL := force;
             world := w; calls := [call] |}.
Proof.
  intros Hnet Hk Hu. unfold attempt, bothEmpty.
  destruct (keys (saku w)) as [|k ks] eqn:Hkeys; [congruence|]. simpl.
  unfold dispatch. rewrite selectFamily_keys_only by (rewrite ?Hkeys; auto; discriminate).
  simpl. unfold translateWithKey.
  destruct (IntN_lookup (randIndex env) (keys (saku w))) as (i & key & Hi & Hkey);
    [rewrite Hkeys; discriminate|].
  rewrite Hi, Hkey.
  destruct (Hnet (deepLEndpoint key) key
              (deepLReq.mk [deepLXReq.Text lxReq] (deepLXReq.TargetLang lxReq) ""))
    as (lResp & -> & ->).
  eauto.
Qed.

Lemma no_entries_passes envs enable lxReq force w :
  Forall answersNoEntries envs → keys (saku w) ≠ [] → urls (saku w) = [] →
  let passes := reTranslate envs enable (Some lxReq) force w in
  length passes = length envs
  ∧ Forall (λ a, outcome a = GotoReTranslate NoTranslations ∧ world a = w
                 ∧ length (calls a) = 1) passes.
Proof.
  intros Hnets Hk Hu. cbv zeta.
  induction Hnets as [|env envs Hnet _ IH]; simpl; [split; [reflexivity | constructor]|].
  destruct (no_entries_pass env enable lxReq force w Hnet Hk Hu) as (call & ->). simpl.
  destruct IH as [Hlen Hall]. split; [now rewrite Hlen|].
  constructor; [auto | exact Hall].
Qed.

(** There is no cap on the retries: while the only upstreams alive are
    keys that answer without error and without a translation (a quota
    message, say), every pass sends one request, evicts nothing and
    jumps back, however many passes are made. *)
Theorem no_translation_retried_forever envs enable lxReq w :
  Forall answersNoEntries envs →
  keys (saku w) ≠ [] →
  urls (saku w) = [] →
  let run := handleForward envs enable (Read (Some lxReq)) w in
  run.1.1 = StillRetrying ∧ run.1.2 = w ∧ length run.2 = length envs.
Proof.
  intros Hnets Hk Hu. cbv zeta. unfold handleForward.
  destruct (no_entries_passes envs enable lxReq false w Hnets Hk Hu) as [Hlen Hall].
  set (passes := reTranslate envs enable (Some lxReq) false w) in *.
  cbn [fst snd]. rewrite Forall_forall in Hall.
  split; [|split].
  - unfold ending. destruct (last passes) as [a|] eqn:Hlast; [|reflexivity].
    destruct (Hall a) as (-> & _); [|reflexivity].
    apply last_Some in Hlast as [l ->]. apply elem_of_app. right. constructor.
  - destruct (last passes) as [a|] eqn:Hlast; [|reflexivity]. simpl.
    apply (Hall a).
    apply last_Some in Hlast as [l ->]. apply elem_of_app. right. constructor.
  - rewrite <- Hlen. clear Hlen.
    induction passes as [|a passes IH]; [reflexivity|]. simpl.
    rewrite length_app, IH.
    + destruct (Hall a) as (_ & _ & ->); [constructor | reflexivity].
    + intros b Hb. apply Hall. now constructor.
Qed.

Lemma no_translation_retried_forever_witness :
  let envs := replicate 7 (pass 0 0 (upstreams (Ok (deepLResp.mk None "Quota Exceeded")) timeout)) in
  let run := handleForward envs false (Read (Some hello)) (pool ["k1"] []) in
  Forall answersNoEntries envs
  ∧ run.1.1 = StillRetrying ∧ run.1.2 = pool ["k1"] [] ∧ length run.2 = 7.
Proof.
  cbv zeta.
  assert (Hnets : Forall answersNoEntries
            (replicate 7 (pass 0 0 (upstreams (Ok (deepLResp.mk None "Quota Exceeded")) timeout)))).
  { apply Forall_replicate. intros endpoint key req. eexists. split; reflexivity. }
  split; [exact Hnets|].
  apply (no_translation_retried_forever _ false hello (pool ["k1"] []) Hnets);
    [discriminate | reflexivity].
Defined.

Lemma evict_member isKey x w :
  x ∈ family isKey (saku w) → S (alive (evict isKey x w)) = alive w.
Proof.
  intros Hin. unfold alive, evict. simpl.
  destruct (removeKeyOrURL_present _ _ _ Hin) as (saku' & -> & Hp & Hother). simpl.
  apply Permutation_length in Hp.
  destruct isKey; simpl in *; rewrite Hother; lia.
Qed.

Lemma failing_pass env enable lxReq w :
  allFail env → bothEmpty (saku w) = false →
  let a := attempt env enable (Some lxReq) false w in
  (outcome a = GotoReTranslate KeyPostFailed ∨ outcome a = GotoReTranslate URLFailed)
  ∧ forceUseDeepL a = false ∧ S (alive (world a)) = alive w ∧ length (calls a) = 1.
Proof.
  intros [Hkeys Hurls] Hne. cbv zeta. unfold attempt. rewrite Hne. unfold dispatch.
  destruct (selectFamily_populated env (saku w) Hne) as [[-> Hk]|[-> Hu]]; simpl.
  - unfold translateWithKey.
    destruct (IntN_lookup (randIndex env) (keys (saku w)) Hk) as (i & key & -> & Hkey).
    rewrite Hkey.
    destruct (Hkeys (deepLEndpoint key) key
                (deepLReq.mk [deepLXReq.Text lxReq] (deepLXReq.TargetLang lxReq) ""))
      as [err ->]. simpl.
    repeat split; auto.
    apply (evict_member true). eapply list_elem_of_lookup_2, Hkey.
  - unfold translateWithURL.
    destruct (IntN_lookup (randIndex env) (urls (saku w)) Hu) as (i & u & -> & Hurl).
    rewrite Hurl. specialize (Hurls u lxReq).
    assert (Hev : S (alive (evict false u w)) = alive w)
      by (apply (evict_member false); eapply list_elem_of_lookup_2, Hurl).
    destruct (postDeepLX (net env) u lxReq) as [lxResp|err]; simpl.
    + apply Z.eqb_neq in Hurls. rewrite Hurls. simpl. auto.
    + auto.
Qed.

Lemma failing_passes envs enable lxReq w :
  Forall allFail envs → length envs ≤ alive w →
  let passes := reTranslate envs enable (Some lxReq) false w in
  length passes = length envs
  ∧ Forall (λ a, (outcome a = GotoReTranslate KeyPostFailed
                  ∨ outcome a = GotoReTranslate URLFailed)
                 ∧ length (calls a) = 1) passes
  ∧ alive (default w (world <$> last passes)) + length envs = alive w.
Proof.
  intros Hnets. revert w. cbv zeta.
  induction Hnets as [|env envs Hnet _ IH]; intros w Hlen.
  - simpl. repeat split; [constructor | lia].
  - simpl in Hlen. cbn [reTranslate].
    assert (Hne : bothEmpty (saku w) = false).
    { unfold bothEmpty, alive in *.
      destruct (keys (saku w)), (urls (saku w)); simpl in *; try reflexivity; lia. }
    destruct (failing_pass env enable lxReq w Hnet Hne) as (Hout & Hforce & Halive & Hcalls).
    rewrite Hforce.
    destruct (IH (world (attempt env enable (Some lxReq) false w))) as (Hl & Hall & Hend);
      [lia|].
    assert (Hgoto : ∃ site, outcome (attempt env enable (Some lxReq) false w)
                            = GotoReTranslate site) by (destruct Hout; eauto).
    destruct Hgoto as [site Hsite]. rewrite Hsite.
    rewrite last_world_cons. cbn [length].
    split; [now rewrite Hl|]. split; [|lia].
    constructor; [|exact Hall]. split; [exact Hout | exact Hcalls].
Qed.

(** When every call to an upstream fails, the handler tries one
    upstream per pass and evicts it: after as many passes as there were
    upstreams alive, each was called once, a repeated entry once per
    occurrence, and the pool is empty, so that the next pass starts with
    a refresh. *)
Theorem failing_upstreams_exhaust_pool envs enable lxReq w :
  Forall allFail envs →
  length envs = alive w →
  let passes := reTranslate envs enable (Some lxReq) false w in
  let run := handleForward envs enable (Read (Some lxReq)) w in
  length passes = alive w
  ∧ Forall (λ a, (outcome a = GotoReTranslate KeyPostFailed
                  ∨ outcome a = GotoReTranslate URLFailed)
                 ∧ length (calls a) = 1) passes
  ∧ bothEmpty (saku run.1.2) = true
  ∧ length run.2 = alive w.
Proof.
  intros Hnets Hlen. cbv zeta. unfold handleForward. cbn [fst snd].
  destruct (failing_passes envs enable lxReq w Hnets) as (Hl & Hall & Hend); [lia|].
  set (passes := reTranslate envs enable (Some lxReq) false w) in *.
  split; [lia|]. split; [exact Hall|]. split.
  - unfold bothEmpty, alive in *.
    destruct (keys (saku (default w (world <$> last passes)))),
             (urls (saku (default w (world <$> last passes)))); simpl in *;
      try reflexivity; lia.
  - rewrite <- Hlen, <- Hl. clear - Hall.
    induction Hall as [|a passes [_ Ha] _ IH]; [reflexivity|].
    simpl. rewrite length_app, Ha, IH. reflexivity.
Qed.

Lemma failing_upstreams_exhaust_pool_witness :
  let envs := replicate 3 (pass 1 5 (upstreams timeout timeout)) in
  let w := pool ["k1"; "k2"] ["http://u1"] in
  let passes := reTranslate envs true (Some hello) false w in
  let run := handleForward envs true (Read (Some hello)) w in
  Forall allFail envs ∧ length envs = alive w
  ∧ length passes = 3
  ∧ Forall (λ a, (outcome a = GotoReTranslate KeyPostFailed
                  ∨ outcome a = GotoReTranslate URLFailed)
                 ∧ length (calls a) = 1) passes
  ∧ bothEmpty (saku run.1.2) = true
  ∧ length run.2 = 3.
Proof.
  cbv zeta.
  assert (Hnets : Forall allFail (replicate 3 (pass 1 5 (upstreams timeout timeout)))).
  { apply Forall_replicate. split; [intros; eexists; reflexivity | intros; exact I]. }
  split; [exact Hnets|]. split; [reflexivity|].
  exact (failing_upstreams_exhaust_pool _ true hello (pool ["k1"; "k2"] ["http://u1"])
           Hnets eq_refl).
Defined.

(** ** What the handler answers *)

Lemma pass_answer_codes env enable reqBody force w :
  match outcome (attempt env enable reqBody force w) with
  | Return (HttpOK lxResp) =>
    deepLXResp.Code lxResp = StatusOK ∧ is_Some reqBody
  | Return (HttpError msg code) =>
    code = StatusInternalServerError
    ∨ (code = StatusBadRequest ∧ msg = "invalid request body" ∧ reqBody = None)
  | _ => True
  end.
Proof.
  pass_cases; auto;
    repeat match goal with
           | H : negb (_ =? _)%Z = false |- _ =>
             apply negb_false_iff, Z.eqb_eq in H
           end;
    split; eauto.
Qed.

(** Whatever the upstreams answer, a translation the handler returns
    carries the code 200, also when its text is the one of the fallback;
    an error it returns has status 500, or status 400 with the text
    "invalid request body", and this only when the body did not
    decode. *)
Theorem handleForward_answer_codes envs enable body w :
  match (handleForward envs enable body w).1.1 with
  | Responded (HttpOK lxResp) =>
    deepLXResp.Code lxResp = StatusOK ∧ ∃ lxReq, body = Read (Some lxReq)
  | Responded (HttpError msg code) =>
    code = StatusInternalServerError
    ∨ (code = StatusBadRequest ∧ msg = "invalid request body" ∧ body = Read None)
  | _ => True
  end.
Proof.
  destruct body as [err|reqBody]; simpl; [now left|].
  destruct (ending (reTranslate envs enable reqBody false w)) as [r| |] eqn:He; try exact I.
  apply ending_Responded in He as (a & Hlast & Ho).
  rewrite last_lookup in Hlast.
  destruct (reTranslate_pass _ _ _ _ _ _ _ Hlast) as (env & f & w' & ->).
  pose proof (pass_answer_codes env enable reqBody f w') as H. rewrite Ho in H.
  destruct r as [msg code|lxResp].
  - destruct H as [H|(H1 & H2 & ->)]; auto.
  - destruct H as [H [lxReq ->]]. eauto.
Qed.

(** ** The fallback translation *)

Section GoogleTranslate.
Context (Sprint : json → string).
Hypothesis Sprint_string : ∀ s, Sprint (JString s) = s.

Lemma firstOfEach_segments segs :
  Google.firstOfEach Sprint (segment <$> segs) = Some (segs.*1).
Proof.
  induction segs as [|[t others] segs IH]; [reflexivity|].
  rewrite !fmap_cons. change (segment (t, others)) with (JArray (JString t :: others)).
  cbn [Google.firstOfEach]. rewrite IH, Sprint_string. reflexivity.
Qed.

(** On a reply whose first element is an array of segments, each an
    array that begins with a translated string, [googleTranslate]
    returns these strings joined in their order; what follows the first
    element of the reply or of a segment is ignored. *)
Theorem googleTranslate_joins_segments get sourceText sourceLang targetLang body segs rest :
  get (Google.requestURL sourceText sourceLang targetLang)
    = GotBody body (Ok (JArray (segment <$> segs) :: rest)) →
  Contains body "<title>Error 400 (Bad Request)" = false →
  Google.googleTranslate Sprint get sourceText sourceLang targetLang
    = Returns (String.concat "" (segs.*1)).
Proof.
  intros Hget Hbody. unfold Google.googleTranslate.
  rewrite Hget, Hbody. cbv beta iota. now rewrite firstOfEach_segments.
Qed.

End GoogleTranslate.

Lemma googleTranslate_joins_segments_witness :
  (∀ s, sprintText (JString s) = s)
  ∧ Contains "[[[...],[...]],null,en]" "<title>Error 400 (Bad Request)" = false
  ∧ Google.googleTranslate sprintText getTwoSegments "hello world. bye" "en" "zh"
    = Returns "你好世界。再见".
Proof.
  split; [reflexivity|]. split; [reflexivity|].
  exact (googleTranslate_joins_segments sprintText (λ s, eq_refl) getTwoSegments
           "hello world. bye" "en" "zh" _ twoSegments _ eq_refl eq_refl).
Defined.

Lemma firstOfEach_None Sprint inner :
  Google.firstOfEach Sprint inner = None ↔ forallb isArray inner = false.
Proof.
  induction inner as [|v inner IH]; simpl; [split; discriminate|].
  destruct v; simpl; try (split; reflexivity).
  destruct (Google.firstOfEach Sprint inner).
  - split; [discriminate|]. intros H. apply IH in H. discriminate.
  - split; [intros _; now apply IH | reflexivity].
Qed.

(** [googleTranslate] panics, at one of its two type assertions,
    exactly when the reply is a non-empty array whose first element is
    not an array of arrays: [null] or a string in its place, or in the
    place of a segment.  An error page is answered with an error before
    the reply is looked at. *)
Theorem googleTranslate_panics Sprint get sourceText sourceLang targetLang :
  Google.googleTranslate Sprint get sourceText sourceLang targetLang = Panics ↔
  ∃ body v rest,
    get (Google.requestURL sourceText sourceLang targetLang) = GotBody body (Ok (v :: rest))
    ∧ Contains body "<title>Error 400 (Bad Request)" = false
    ∧ arrayOfArrays v = false.
Proof.
  unfold Google.googleTranslate.
  destruct (get _) as [err|err|body unmarshal];
    try (split; [discriminate | intros (? & ? & ? & ? & _); discriminate]).
  destruct (Contains body _) eqn:Hbody.
  { split; [discriminate|]. intros (b & v & rest & [= -> _] & Hb & _). congruence. }
  destruct unmarshal as [[|v rest]|err];
    try (split; [discriminate | intros (? & ? & ? & ? & _); discriminate]).
  assert (Hshape : match v with
                   | JArray inner =>
                     match Google.firstOfEach Sprint inner with
                     | Some text => Returns (String.concat "" text)
                     | None => Panics
                     end
                   | _ => Panics
                   end = Panics ↔ arrayOfArrays v = false).
  { destruct v; simpl; try (split; reflexivity).
    rewrite <- (firstOfEach_None Sprint).
    destruct (Google.firstOfEach Sprint l); split; congruence. }
  split.
  - intros H. exists body, v, rest. split; [reflexivity|]. split; [exact Hbody|].
    apply Hshape. exact H.
  - intros (b & v' & rest' & [= <- <- <-] & _ & Hv). apply Hshape. exact Hv.
Qed.

(** ** The running server *)

Lemma reachable_flag P w : reachable P w → isChecking w = false.
Proof.
  induction 1 as [|env w _ IH _|isKey x w _ IH]; [reflexivity| |exact IH].
  unfold runCheck. rewrite IH. now destruct (parseKeysAndURLs _) as [[ks us]|e].
Qed.

Lemma dispatch_world env enable reqBody force w sent :
  world (dispatch env enable reqBody force w sent) = w
  ∨ ∃ isKey x, world (dispatch env enable reqBody force w sent) = evict isKey x w.
Proof.
  unfold dispatch, translateWithKey, translateWithURL, checkContainsChinese.
  repeat case_match; simpl; eauto.
Qed.

Lemma attempt_reachable P env enable reqBody force w :
  P (apis_txt (check env)) → reachable P w →
  reachable P (world (attempt env enable reqBody force w)).
Proof.
  intros Hfile Hr.
  assert (Hd : ∀ w' sent, reachable P w' →
            reachable P (world (dispatch env enable reqBody force w' sent))).
  { intros w' sent Hr'.
    destruct (dispatch_world env enable reqBody force w' sent) as [->|(isKey & x & ->)];
      [exact Hr' | now apply reach_evict]. }
  pose proof (reach_refresh P (check env) w Hr Hfile) as Hrefresh.
  unfold attempt. destruct (bothEmpty (saku w)); [|now apply Hd].
  destruct (runCheck (check env) w) as [[r w'] probes]. simpl in Hrefresh.
  destruct (snd r) as [err|].
  - destruct (decide _); exact Hrefresh.
  - destruct (bothEmpty (saku w')); [exact Hrefresh | now apply Hd].
Qed.

Lemma reTranslate_reachable P envs enable reqBody force w :
  Forall (λ env, P (apis_txt (check env))) envs → reachable P w →
  reachable P (default w (world <$> last (reTranslate envs enable reqBody force w))).
Proof.
  intros Hfiles. revert force w.
  induction Hfiles as [|env envs Hfile _ IH]; intros force w Hr; [exact Hr|].
  cbn [reTranslate]. rewrite last_world_cons.
  pose proof (attempt_reachable P env enable reqBody force w Hfile Hr) as Ha.
  destruct (outcome (attempt env enable reqBody force w)); [exact Ha | now apply IH | exact Ha].
Qed.

Lemma handleCheckAlive_world env w : (handleCheckAlive env w).1.2 = (runCheck env w).1.2.
Proof.
  unfold handleCheckAlive. destruct (runCheck env w) as [[[[tk tu] [err|]] w'] probes];
    [|reflexivity].
  now destruct (decide _).
Qed.

Lemma serve_reachable P enable w ev :
  eventReads P ev → reachable P w → reachable P (serve enable w ev).
Proof.
  destruct ev as [env|env|envs body]; simpl; intros Hfile Hr.
  - now apply reach_refresh.
  - rewrite handleCheckAlive_world. now apply reach_refresh.
  - destruct body as [err|reqBody]; [exact Hr|]. simpl.
    now apply reTranslate_reachable.
Qed.

Lemma main_reachable P enable startup events w :
  P (apis_txt startup) → Forall (eventReads P) events →
  main enable startup events = Some w → reachable P w.
Proof.
  intros Hfile Hevents. unfold main.
  pose proof (reach_refresh P startup startWorld (reach_start P) Hfile) as Hr.
  change {| saku := {| keys := []; urls := [] |}; isChecking := false |} with startWorld.
  destruct (runCheck startup startWorld) as [[r w0] probes]. simpl in Hr.
  destruct r.2; [discriminate|]. intros [= <-].
  clear Hfile. revert w0 Hr.
  induction Hevents as [|ev events Hev _ IH]; intros w0 Hr; [exact Hr|].
  simpl. apply IH. now apply serve_reachable.
Qed.

Lemma eventReads_any ev : eventReads (λ _, True) ev.
Proof. destruct ev; simpl; auto. apply Forall_forall. auto. Qed.

(** In every state the server is in between two events, whatever the
    files read, the answers of the network and the draws: the flag
    [isChecking] is clear, every key alive is a line that does not begin
    with [http], every url alive one that does, and so no upstream is in
    both slices. *)
Theorem main_keeps_pool_classified enable startup events w :
  main enable startup events = Some w →
  isChecking w = false
  ∧ Forall (λ k, HasPrefix k "http" = false) (keys (saku w))
  ∧ Forall (λ u, HasPrefix u "http" = true) (urls (saku w))
  ∧ ∀ x, x ∈ keys (saku w) → x ∈ urls (saku w) → False.
Proof.
  intros Hmain.
  assert (Hr : reachable (λ _, True) w).
  { eapply main_reachable; [exact I | | exact Hmain].
    apply Forall_forall. intros ev _. apply eventReads_any. }
  destruct (reachable_classified _ _ Hr) as [Hk Hu].
  split; [exact (reachable_flag _ _ Hr)|]. split; [exact Hk|]. split; [exact Hu|].
  rewrite Forall_forall in Hk, Hu. intros x Hxk Hxu.
  specialize (Hk x Hxk). specialize (Hu x Hxu). congruence.
Qed.

Lemma main_keeps_pool_classified_witness :
  let w := pool ["k1"; "k2"] [] in
  main true (refreshAlive threeLines) oneRequest = Some w
  ∧ isChecking w = false
  ∧ Forall (λ k, HasPrefix k "http" = false) (keys (saku w))
  ∧ Forall (λ u, HasPrefix u "http" = true) (urls (saku w))
  ∧ ∀ x, x ∈ keys (saku w) → x ∈ urls (saku w) → False.
Proof.
  split; [reflexivity|].
  exact (main_keeps_pool_classified true (refreshAlive threeLines) oneRequest
           (pool ["k1"; "k2"] []) eq_refl).
Defined.

Lemma reachable_within file ks us w :
  parseKeysAndURLs file = Ok (ks, us) →
  reachable (λ f, f = file) w →
  keys (saku w) ⊆ ks ∧ urls (saku w) ⊆ us.
Proof.
  intros Hparse. induction 1 as [|env w _ IH Hfile|isKey x w _ IH].
  - split; apply list_subseteq_nil.
  - destruct (runCheck_cases env w)
      as [->|(ks0 & us0 & ks' & us' & Hparse0 & -> & Hk & Hu)]; [exact IH|].
    rewrite Hfile, Hparse in Hparse0. injection Hparse0 as <- <-.
    destruct Hk as (lk & Hpk & Hsk), Hu as (lu & Hpu & Hsu). simpl.
    split; intros y; [rewrite Hpk | rewrite Hpu]; now apply sublist_subseteq.
  - destruct IH as [Hk Hu]. unfold evict. simpl. split.
    + etransitivity; [apply (removeKeyOrURL_subseteq isKey true)|exact Hk].
    + etransitivity; [apply (removeKeyOrURL_subseteq isKey false)|exact Hu].
Qed.

(** While the file does not change, the pool stays within the
    configured list: in every state of the server each key alive is a
    configured credential and each url alive a configured endpoint; a
    request only takes upstreams out, a refresh only puts configured
    ones back. *)
Theorem main_pool_within_configured enable startup events file ks us w :
  parseKeysAndURLs file = Ok (ks, us) →
  apis_txt startup = file →
  Forall (eventReads (λ f, f = file)) events →
  main enable startup events = Some w →
  keys (saku w) ⊆ ks ∧ urls (saku w) ⊆ us.
Proof.
  intros Hparse Hstartup Hevents Hmain.
  eapply reachable_within; [exact Hparse|].
  eapply main_reachable; [exact Hstartup | exact Hevents | exact Hmain].
Qed.

Lemma main_pool_within_configured_witness :
  let file := Scanned threeLines None in
  let w := pool ["k1"; "k2"] [] in
  parseKeysAndURLs file = Ok (["k1"; "k2"], ["http://u1"])
  ∧ Forall (eventReads (λ f, f = file)) oneRequest
  ∧ main true (refreshAlive threeLines) oneRequest = Some w
  ∧ keys (saku w) ⊆ ["k1"; "k2"] ∧ urls (saku w) ⊆ ["http://u1"].
Proof.
  cbv zeta.
  assert (Hevents : Forall (eventReads (λ f, f = Scanned threeLines None)) oneRequest).
  { repeat constructor. }
  split; [reflexivity|]. split; [exact Hevents|]. split; [reflexivity|].
  exact (main_pool_within_configured true (refreshAlive threeLines) oneRequest
           (Scanned threeLines None) ["k1"; "k2"] ["http://u1"] (pool ["k1"; "k2"] [])
           eq_refl eq_refl Hevents eq_refl).
Defined.

(** ** Who is in the pool after a refresh *)

Lemma probeFrom_elem net isKey i l x :
  x ∈ probeFrom net isKey i l ↔
  ∃ j, l !! j = Some x ∧ (checkAlive (net (i + j)) isKey x).1 = true.
Proof.
  revert i. induction l as [|k l IH]; intros i; simpl.
  - rewrite elem_of_nil. split; [tauto|]. intros (j & Hj & _). now rewrite lookup_nil in Hj.
  - assert (Hrest : x ∈ probeFrom net isKey (S i) l ↔
              ∃ j, l !! j = Some x ∧ (checkAlive (net (i + S j)) isKey x).1 = true).
    { rewrite IH. split; intros (j & Hj & Ha); exists j; (split; [exact Hj|]).
      - now rewrite Nat.add_succ_r.
      - now rewrite Nat.add_succ_r in Ha. }
    pose proof (checkAlive_no_error (net i) isKey k) as Hnil.
    destruct (checkAlive (net i) isKey k) as [[|] [e|]] eqn:Hk; try discriminate Hnil.
    + rewrite elem_of_cons, Hrest. split.
      * intros [->|(j & Hj & Ha)].
        -- exists 0. rewrite Nat.add_0_r, Hk. auto.
        -- exists (S j). auto.
      * intros ([|j] & Hj & Ha).
        -- left. simpl in Hj. congruence.
        -- right. eauto.
    + rewrite Hrest. split.
      * intros (j & Hj & Ha). exists (S j). auto.
      * intros ([|j] & Hj & Ha); [|eauto].
        simpl in Hj. injection Hj as <-. rewrite Nat.add_0_r, Hk in Ha. discriminate.
Qed.

(** After a refresh that read a configured list, an upstream is in the
    pool exactly when some line configures it and the probe sent for
    that line reported it alive: nothing else gets in, and what the pool
    held before plays no part. *)
Theorem runCheck_membership env w ks us :
  isChecking w = false →
  parseKeysAndURLs (apis_txt env) = Ok (ks, us) →
  let after := saku (runCheck env w).1.2 in
  (∀ k, k ∈ keys after ↔
        ∃ j, ks !! j = Some k ∧ (checkAlive (probeNet env j) true k).1 = true)
  ∧ (∀ u, u ∈ urls after ↔
          ∃ j, us !! j = Some u ∧ (checkAlive (probeNet env j) false u).1 = true).
Proof.
  intros Hflag Hparse. rewrite (runCheck_success env w ks us Hflag Hparse). simpl.
  split; intros x; rewrite arrange_perm, probeFrom_elem; reflexivity.
Qed.

Lemma runCheck_membership_witness :
  let env := refreshSecondDown ["k1"; "k2"; "http://u1"; "k3"] in
  let after := saku (runCheck env (pool ["k2"; "old"] [])).1.2 in
  after = {| keys := ["k1"; "k3"]; urls := ["http://u1"] |}
  ∧ (∀ k, k ∈ keys after ↔
          ∃ j, ["k1"; "k2"; "k3"] !! j = Some k ∧ (checkAlive (probeNet env j) true k).1 = true)
  ∧ (∀ u, u ∈ urls after ↔
          ∃ j, ["http://u1"] !! j = Some u ∧ (checkAlive (probeNet env j) false u).1 = true).
Proof.
  split; [reflexivity|].
  exact (runCheck_membership (refreshSecondDown ["k1"; "k2"; "http://u1"; "k3"])
           (pool ["k2"; "old"] []) ["k1"; "k2"; "k3"] ["http://u1"] eq_refl eq_refl).
Defined.
